(** * reviewdog: diff-aware filtering and the GitHub delivery pipeline

    A shallow embedding of
      - the diff index and the filter that [filter_test.go] exercises,
      - [service/github/github.go] (Post, Flush, batching, dedup index),
      - the check computer that [doghouse/server/doghouse_test.go] exercises,
    together with the properties claimed about them.

    Go's [int] is modelled as [Z].  The integers that count lines, comments
    and pages stay far away from the 64-bit bounds; the one product that can
    leave them, the duration of the backoff sleep, is wrapped. *)

From Stdlib Require Import ZArith Lia Ascii String.
From stdpp Require Import base strings list gmap fin_maps pretty.

Open Scope Z_scope.

(** ** Errors of the hosting API client

    The sources distinguish errors only by their dynamic type:
    [errors.New] values, go-github's [*github.ErrorResponse] (which carries
    the HTTP status code) and its [*github.AbuseRateLimitError]. *)
Inductive error : Type :=
| errorString (s : string)
| ErrorResponse (StatusCode : Z)
| AbuseRateLimitError (Message : string).

Definition StatusForbidden : Z := 403.

(** ** Paths *)
Module Paths.

Fixpoint splitPathList (s : string) : list string :=
  match s with
  | EmptyString => [EmptyString]
  | String c s' =>
      if Ascii.eqb c "/"%char then EmptyString :: splitPathList s'
      else match splitPathList s' with
           | [] => [String c EmptyString]
           | x :: xs => String c x :: xs
           end
  end.

Definition joinPathList (ps : list string) : string := String.concat "/" ps.

(** Modelled from the spec: path handling of the filter (4.1).  The leading
    [strip] components are removed (git's strip convention), and the result
    is joined with the working sub-directory.  A path with no more than
    [strip] components is left alone, as the spec's path-normalization
    property needs ([foo.go] at depth 1, run from [sub/], is [sub/foo.go]). *)
Definition stripPath (strip : nat) (path : string) : string :=
  let ps := splitPathList path in
  if (strip <? length ps)%nat then joinPathList (drop strip ps) else path.

Definition joinDir (dir path : string) : string :=
  if String.eqb dir "" then path
  else if String.eqb path "" then dir
  else dir +:+ "/" +:+ path.

Definition normalizePath (strip : nat) (wd path : string) : string :=
  joinDir wd (stripPath strip path).

End Paths.

(** ** The diff model, the diff index and the filter *)
Module Difffilter.

(** Modelled from the spec: the hunk model of section 3.  The diff parser
    is an outside collaborator; only the shape of its output is used. *)
Inductive LineType : Type := LineUnchanged | LineAdded | LineDeleted.

Record Line : Type := mkLine { Type_ : LineType; Content : string }.

Record Hunk : Type := mkHunk {
  StartLineOld : Z; LineLengthOld : Z;
  StartLineNew : Z; LineLengthNew : Z;
  Lines : list Line
}.

Record FileDiff : Type := mkFileDiff {
  PathOld : string; PathNew : string; Hunks : list Hunk
}.

#[global] Instance LineType_eq_dec : EqDecision LineType.
Proof. solve_decision. Defined.

Definition isAdded (t : LineType) : bool :=
  match t with LineAdded => true | _ => false end.

(** One entry of the index: the diff position of a new-file line and the
    kind of diff line that carries it. *)
Record Entry : Type := mkEntry { LnumDiff : Z; Kind : LineType }.

(** Modelled from the spec: the diff position is a running counter of the
    content lines of one file's section.  [pos] is the position of the line
    walked last, [lnew] the new-file number of the next context or addition
    line.  A deletion consumes a position and has no new-file number. *)
Fixpoint indexLines (ls : list Line) (pos lnew : Z) (m : gmap Z Entry)
  : Z * gmap Z Entry :=
  match ls with
  | [] => (pos, m)
  | l :: ls' =>
      match Type_ l with
      | LineDeleted => indexLines ls' (pos + 1) lnew m
      | k => indexLines ls' (pos + 1) (lnew + 1)
               (<[lnew := mkEntry (pos + 1) k]> m)
      end
  end.

(** Modelled from the spec: the counter is not reset between the hunks of
    a file. *)
Fixpoint indexHunks (hs : list Hunk) (pos : Z) (m : gmap Z Entry)
  : gmap Z Entry :=
  match hs with
  | [] => m
  | h :: hs' =>
      let '(pos', m') := indexLines (Lines h) pos (StartLineNew h) m in
      indexHunks hs' pos' m'
  end.

(** Modelled from the spec: [BuildIndex], keyed by new-file path. *)
Fixpoint BuildIndex (fds : list FileDiff) : gmap string (gmap Z Entry) :=
  match fds with
  | [] => ∅
  | fd :: fds' => <[PathNew fd := indexHunks (Hunks fd) 0 ∅]> (BuildIndex fds')
  end.

(** Modelled from the spec: the four filter modes of section 4.1. *)
Inductive Mode : Type := ModeAdded | ModeDiffContext | ModeFile | ModeNoFilter.

(** Modelled from the spec: the question the index answers (2): is this
    path and new-file line in the diff, and where. *)
Definition lookupLine (idx : gmap string (gmap Z Entry)) (path : string)
  (lnum : Z) : option Entry :=
  match idx !! path with
  | Some lines => lines !! lnum
  | None => None
  end.

(** Modelled from the spec: the table of 4.1.  [InDiff] answers whether a
    (normalized) path and new-file line are kept under a mode, and at which
    diff position (0 when none is needed). *)
Definition InDiff (idx : gmap string (gmap Z Entry)) (mode : Mode)
  (path : string) (lnum : Z) : bool * Z :=
  match mode with
  | ModeAdded =>
      match lookupLine idx path lnum with
      | Some e => if isAdded (Kind e) then (true, LnumDiff e) else (false, 0)
      | None => (false, 0)
      end
  | ModeDiffContext =>
      match lookupLine idx path lnum with
      | Some e => (true, LnumDiff e)
      | None => (false, 0)
      end
  | ModeFile =>
      match idx !! path with
      | Some _ => (true, 0)
      | None => (false, 0)
      end
  | ModeNoFilter => (true, 0)
  end.

End Difffilter.

(** ** Findings and the filter ([FilterCheck], used by [filter_test.go]) *)
Module Reviewdog.
Import Difffilter.

(** Modelled from the spec: a finding (section 3); the field names are the
    ones [filter_test.go] uses. *)
Record CheckResult : Type := mkCheckResult {
  Path : string; Lnum : Z; Message : string; RawMessage : string
}.

(** Modelled from the spec: a filtered finding (section 3), named as in
    [filter_test.go]. *)
Record FilteredCheck : Type := mkFilteredCheck {
  CheckResult_ : CheckResult; InDiff : bool; LnumDiff : Z
}.

#[global] Instance CheckResult_eq_dec : EqDecision CheckResult.
Proof. solve_decision. Defined.

(** Modelled from the spec: [FilterCheck] (4.1) annotates every finding; it
    drops none.  Argument order as in the calls of [filter_test.go]. *)
Definition filterOne (idx : gmap string (gmap Z Entry)) (strip : nat)
  (wd : string) (mode : Mode) (r : CheckResult) : FilteredCheck :=
  let '(indiff, lnumdiff) :=
    Difffilter.InDiff idx mode (Paths.normalizePath strip wd (Path r)) (Lnum r) in
  mkFilteredCheck r indiff lnumdiff.

Definition FilterCheck (results : list CheckResult) (diff : list FileDiff)
  (strip : nat) (wd : string) (mode : Mode) : list FilteredCheck :=
  let idx := BuildIndex diff in
  map (filterOne idx strip wd mode) results.

(** The findings a mode keeps. *)
Definition kept (results : list CheckResult) (diff : list FileDiff)
  (strip : nat) (wd : string) (mode : Mode) : list CheckResult :=
  map CheckResult_ (filter (λ c, InDiff c = true) (FilterCheck results diff strip wd mode)).

(** The parser's output for [diffContent] of [filter_test.go]: two files with
    one hunk each; the no-newline marker lines are not content lines.  (The
    text of the first line of the second file starts with a quote character,
    left out here; the text of a line plays no part in the index.) *)
Definition sampleDiff : list FileDiff :=
  [ mkFileDiff "sample.old.txt" "sample.new.txt"
      [ mkHunk 1 3 1 4
          [ mkLine LineUnchanged "unchanged, contextual line";
            mkLine LineDeleted "deleted line";
            mkLine LineAdded "added line";
            mkLine LineAdded "added line";
            mkLine LineUnchanged "unchanged, contextual line" ] ];
    mkFileDiff "nonewline.old.txt" "nonewline.new.txt"
      [ mkHunk 1 4 1 4
          [ mkLine LineUnchanged "vim: nofixeol noendofline";
            mkLine LineUnchanged "No newline at end of both the old and new file";
            mkLine LineDeleted "a";
            mkLine LineDeleted "a";
            mkLine LineAdded "b";
            mkLine LineAdded "b" ] ] ].

Definition res (path : string) (lnum : Z) : CheckResult :=
  mkCheckResult path lnum "" "".

End Reviewdog.


(** ** The GitHub pull-request comment service ([service/github/github.go]) *)
Module Github.

Definition maxCommentsPerRequest : Z := 25.

Definition min (x y : Z) : Z := if (x >? y)%Z then y else x.

Definition len {A : Type} (l : list A) : Z := Z.of_nat (length l).

(** Modelled from the spec: [reviewdog.Comment] is declared outside the files
    at hand.  [github.go] reads [c.Path] (promoted from the embedded check
    result), [c.LnumDiff], [c.ToolName] and [c.CheckResult].  The check
    result is held by value. *)
Record Comment : Type := mkComment {
  CheckResult : Reviewdog.CheckResult;
  Body : string;
  LnumDiff : Z;
  ToolName : string
}.

Definition Path (c : Comment) : string := Reviewdog.Path (CheckResult c).

Definition setPath (c : Comment) (p : string) : Comment :=
  mkComment
    (Reviewdog.mkCheckResult p (Reviewdog.Lnum (CheckResult c))
       (Reviewdog.Message (CheckResult c)) (Reviewdog.RawMessage (CheckResult c)))
    (Body c) (LnumDiff c) (ToolName c).

(** go-github's request and response structs; their pointer fields are
    options.  A draft comment points at the fields of the buffered comment
    it was made from; nothing writes those between the making of the draft
    and its submission (both happen inside one [Flush], under the mutex),
    so the draft holds the values. *)
Record DraftReviewComment : Type := mkDraft {
  drPath : option string; drPosition : option Z; drBody : option string
}.

Record PullRequestReviewRequest : Type := mkReview {
  CommitID : option string; Event_ : option string;
  Comments : list DraftReviewComment
}.

Record PullRequestComment : Type := mkPRComment {
  prPath : option string; prPosition : option Z; prBody : option string
}.

Definition GetPath (c : PullRequestComment) : string := default "" (prPath c).
Definition GetPosition (c : PullRequestComment) : Z := default 0 (prPosition c).
Definition GetBody (c : PullRequestComment) : string := default "" (prBody c).

Definition isNil {A : Type} (o : option A) : bool :=
  match o with None => true | Some _ => false end.

Record ListOptions : Type := mkListOptions { Page : Z; PerPage : Z }.
Record Response : Type := mkResponse { NextPage : Z }.

(** The capabilities of [*github.Client] that the service uses.  [W] is the
    state of whatever stands behind the client (GitHub, or a test double);
    a call may change it and may fail. *)
Class Client (W : Type) : Type := {
  ListComments : W → string → string → Z → ListOptions →
                 W * (error + list PullRequestComment * Response);
  CreateReview : W → string → string → Z → PullRequestReviewRequest →
                 W * option error
}.

(** Helpers of other packages and of Go's library, taken as given:
    [serviceutil.CommentBody], [filepath.Join] and [filepath.ToSlash], and
    [githubutils.LinkedMarkdownCheckResult]; and the [int] that the
    conversion of a float64 beyond the range of [int] gives, which Go
    leaves to the implementation. *)
Class Helpers : Type := {
  CommentBody : Comment → string;
  filepath_Join : string → string → string;
  filepath_ToSlash : string → string;
  LinkedMarkdownCheckResult :
    string → string → string → Reviewdog.CheckResult → string;
  intOfFloatOverflow : Z
}.

(** [time.Duration] is an int64 of nanoseconds. *)
Definition wrap64 (z : Z) : Z := (z + 2 ^ 63) mod 2 ^ 64 - 2 ^ 63.

Definition Second : Z := 1000000000.

(** [int(math.Pow(float64(2), float64(cnt)))]: a power of two is exact in
    float64, and fits [int] up to the 62nd. *)
Definition secondsOf {helpers : Helpers} (cnt : Z) : Z :=
  if (cnt <=? 62)%Z then 2 ^ cnt else intOfFloatOverflow.

(** [time.Duration(sec) * time.Second] *)
Definition durationOf (sec : Z) : Z := wrap64 (sec * Second).

(** Modelled from the spec: [serviceutil.PostedComments] is a set of
    (path, diff position, body), with set membership only (3, 4.2). *)
Definition AddPostedComment (path : string) (lineNum : Z) (body : string)
  (p : gset (string * Z * string)) : gset (string * Z * string) :=
  {[ (path, lineNum, body) ]} ∪ p.

(** Modelled from the spec: [IsPosted] is an exact-match lookup (4.2); the
    body looked up is the one a draft is submitted with. *)
Definition IsPosted {helpers : Helpers} (p : gset (string * Z * string))
  (c : Comment) (lineNum : Z) : bool :=
  bool_decide ((Path c, lineNum, CommentBody c) ∈ p).

(** The service.  [cli] is the [Client] instance in scope and [muComments]
    is not modelled: calls are sequential here.  [postComments] holds
    pointers. *)
Record GitHubPullRequest : Type := mkService {
  owner : string; repo : string; pr : Z; sha : string;
  postComments : list nat;
  postedcs : gset (string * Z * string);
  wd : string
}.

Definition setPostComments (g : GitHubPullRequest) (cs : list nat) :=
  mkService (owner g) (repo g) (pr g) (sha g) cs (postedcs g) (wd g).

Definition setPostedcs (g : GitHubPullRequest) (p : gset (string * Z * string)) :=
  mkService (owner g) (repo g) (pr g) (sha g) (postComments g) p (wd g).

(** What the outside sees of a run, in order.  A sleep is recorded with
    its [time.Duration], in nanoseconds. *)
Inductive Event : Type :=
| EvListComments (opts : ListOptions)
| EvCreateReview (review : PullRequestReviewRequest)
| EvSleep (d : Z).

(** The machine: the world behind the client, the heap of comments (a
    [*reviewdog.Comment] is an address), the service and the trace. *)
Record Machine (W : Type) : Type := mkMachine {
  remote : W;
  mem : gmap nat Comment;
  svc : GitHubPullRequest;
  log : list Event
}.
Arguments mkMachine {W}.
Arguments remote {W}.
Arguments mem {W}.
Arguments svc {W}.
Arguments log {W}.

(** A run ends with a value and a machine, or panics (nil dereference), or
    exhausts the fuel given to a recursion that the remote side drives. *)
Inductive Outcome (S A : Type) : Type :=
| Ok (a : A) (s : S)
| Panic
| OutOfFuel.
Arguments Ok {S A}.
Arguments Panic {S A}.
Arguments OutOfFuel {S A}.

Definition M (W A : Type) : Type := Machine W → Outcome (Machine W) A.

Definition ret {W A} (a : A) : M W A := λ m, Ok a m.

Definition bind {W A B} (x : M W A) (f : A → M W B) : M W B :=
  λ m, match x m with
       | Ok a m' => f a m'
       | Panic => Panic
       | OutOfFuel => OutOfFuel
       end.

#[global] Instance M_ret {W} : MRet (M W) := λ A, @ret W A.
#[global] Instance M_bind {W} : MBind (M W) := λ A B f x, bind x f.

Section Service.
Context {W : Type} {cli : Client W} {helpers : Helpers}.

Definition load (c : nat) : M W Comment :=
  λ m, match mem m !! c with
       | Some v => Ok v m
       | None => Panic
       end.

Definition store (c : nat) (v : Comment) : M W unit :=
  λ m, Ok tt (mkMachine (remote m) (<[c := v]> (mem m)) (svc m) (log m)).

Definition getSvc : M W GitHubPullRequest := λ m, Ok (svc m) m.

Definition modifySvc (f : GitHubPullRequest → GitHubPullRequest) : M W unit :=
  λ m, Ok tt (mkMachine (remote m) (mem m) (f (svc m)) (log m)).

Definition emit (e : Event) : M W unit :=
  λ m, Ok tt (mkMachine (remote m) (mem m) (svc m) (log m ++ [e])).

Definition outOfFuel {A} : M W A := λ _, OutOfFuel.

(** [g.cli.PullRequests.CreateReview] and [ListComments]: the call is
    recorded and the world moves on. *)
Definition callCreateReview (review : PullRequestReviewRequest)
  : M W (option error) :=
  λ m, let g := svc m in
       let '(w', err) := CreateReview (remote m) (owner g) (repo g) (pr g) review in
       Ok err (mkMachine w' (mem m) g (log m ++ [EvCreateReview review])).

Definition callListComments (opts : ListOptions)
  : M W (error + list PullRequestComment * Response) :=
  λ m, let g := svc m in
       let '(w', r) := ListComments (remote m) (owner g) (repo g) (pr g) opts in
       Ok r (mkMachine w' (mem m) g (log m ++ [EvListComments opts])).

(** [time.Sleep(time.Duration(sec) * time.Second)] *)
Definition sleep (sec : Z) : M W unit := emit (EvSleep (durationOf sec)).

(** [Post]: the path of the caller's comment is rewritten in place and the
    pointer is appended to the buffer.  Always returns nil. *)
Definition Post (c : nat) : M W (option error) :=
  cv ← load c;
  g ← getSvc;
  (store c (setPath cv (filepath_ToSlash (filepath_Join (wd g) (Path cv))));;
   modifySvc (λ g, setPostComments g (postComments g ++ [c]));;
   ret None).

Definition draftOf (c : Comment) : DraftReviewComment :=
  let cbody := CommentBody c in
  mkDraft (Some (Path c)) (Some (LnumDiff c)) (Some cbody).

(** The loop of [postAsReviewComment]: [comments] and [remaining] are the
    two slices it appends to. *)
Fixpoint reviewLoop (cs : list nat) (comments : list DraftReviewComment)
  (remaining : list nat) : M W (list DraftReviewComment * list nat) :=
  match cs with
  | [] => ret (comments, remaining)
  | c :: cs' =>
      cv ← load c;
      g ← getSvc;
      if IsPosted (postedcs g) cv (LnumDiff cv) then
        reviewLoop cs' comments remaining
      else if (len comments >=? maxCommentsPerRequest)%Z && false then
        reviewLoop cs' comments (remaining ++ [c])
      else
        reviewLoop cs' (comments ++ [draftOf cv]) remaining
  end.

(** [postGitHubComments]; the recursion is on the rest of the slice, and
    [fuel] bounds its depth.  (The line written to the log is left out.) *)
Fixpoint postGitHubComments_rec (fuel : nat) (comments : list DraftReviewComment)
  (cnt : Z) : M W (option error) :=
  match fuel with
  | O => outOfFuel
  | S fuel' =>
      if (len comments =? 0)%Z then ret None
      else
        g ← getSvc;
        let review :=
          mkReview (Some (sha g)) (Some "COMMENT")
            (take (Z.to_nat (min maxCommentsPerRequest (len comments))) comments) in
        err ← callCreateReview review;
        match err with
        | Some e => ret (Some e)
        | None =>
            if (len comments >? maxCommentsPerRequest)%Z then
              let cnt := cnt + 1 in
              let sec := secondsOf cnt in
              (sleep sec;;
               postGitHubComments_rec fuel'
                 (drop (Z.to_nat maxCommentsPerRequest) comments) cnt)
            else ret None
        end
  end.

(** Every call shortens the slice, so its length (plus one for the last,
    empty or short, call) is fuel enough. *)
Definition postGitHubComments (comments : list DraftReviewComment) (cnt : Z)
  : M W (option error) :=
  postGitHubComments_rec (S (length comments)) comments cnt.

Definition postAsReviewComment : M W (option error) :=
  g ← getSvc;
  r ← reviewLoop (postComments g) [] [];
  postGitHubComments r.1 0.

(** [listAllPullRequestsComments]: the remote side says whether there is a
    next page, so the depth is bounded by [fuel]. *)
Fixpoint listAllPullRequestsComments (fuel : nat) (opts : ListOptions)
  : M W (error + list PullRequestComment) :=
  match fuel with
  | O => outOfFuel
  | S fuel' =>
      r ← callListComments opts;
      match r with
      | inl err => ret (inl err)
      | inr (comments, resp) =>
          if (NextPage resp =? 0)%Z then ret (inr comments)
          else
            let newOpts := mkListOptions (NextPage resp) (PerPage opts) in
            r' ← listAllPullRequestsComments fuel' newOpts;
            match r' with
            | inl err => ret (inl err)
            | inr restComments => ret (inr (comments ++ restComments))
            end
      end
  end.

Definition comment (fuel : nat) : M W (error + list PullRequestComment) :=
  let opts := mkListOptions 0 100 in
  listAllPullRequestsComments fuel opts.

(** The body of the loop of [setPostedComment]. *)
Definition addPosted (p : gset (string * Z * string)) (c : PullRequestComment)
  : gset (string * Z * string) :=
  if isNil (prPosition c) || isNil (prPath c) || isNil (prBody c) then p
  else AddPostedComment (GetPath c) (GetPosition c) (GetBody c) p.

Definition setPostedComment (fuel : nat) : M W (option error) :=
  modifySvc (λ g, setPostedcs g ∅);;
  r ← comment fuel;
  match r with
  | inl err => ret (Some err)
  | inr cs =>
      modifySvc (λ g, setPostedcs g (foldl addPosted (postedcs g) cs));;
      ret None
  end.

Definition Flush (fuel : nat) : M W (option error) :=
  err ← setPostedComment fuel;
  match err with
  | Some e => ret (Some e)
  | None => postAsReviewComment
  end.

(** [remainingCommentsSummary]: comments grouped by tool.  Go walks the map
    in an unspecified order; the groups are kept here in the order in which
    their tools first appear. *)
Fixpoint addPerTool (perTool : list (string * list Comment)) (c : Comment)
  : list (string * list Comment) :=
  match perTool with
  | [] => [(ToolName c, [c])]
  | (tool, cs) :: rest =>
      if String.eqb tool (ToolName c) then (tool, cs ++ [c]) :: rest
      else (tool, cs) :: addPerTool rest c
  end.

Definition newline : string := String (ascii_of_nat 10) "".

Definition summaryOfTool (g : GitHubPullRequest) (tc : string * list Comment)
  : string :=
  "Remaining comments which cannot be posted as a review comment to avoid GitHub abuse Rate Limit"
  +:+ newline
  +:+ "### " +:+ tc.1 +:+ newline
  +:+ String.concat ""
       (map (λ c, LinkedMarkdownCheckResult (owner g) (repo g) (sha g) (CheckResult c)
                  +:+ newline) tc.2).

Fixpoint loadAll (cs : list nat) : M W (list Comment) :=
  match cs with
  | [] => ret []
  | c :: cs' => cv ← load c; rest ← loadAll cs'; ret (cv :: rest)
  end.

Definition remainingCommentsSummary (remaining : list nat) : M W string :=
  cs ← loadAll remaining;
  g ← getSvc;
  let perTool := foldl addPerTool [] cs in
  ret (String.concat "" (map (summaryOfTool g) perTool)).

(** *** Vocabulary for the properties *)

(** Every pointer of the slice is live (Go's pointers are, unless nil). *)
Definition live (h : gmap nat Comment) (cs : list nat) : Prop :=
  Forall (λ c, is_Some (h !! c)) cs.

Definition derefs (h : gmap nat Comment) (cs : list nat) : list Comment :=
  omap (λ c, h !! c) cs.

(** The buffered comments that the index does not hold, in buffer order,
    and their drafts: the deduplicated buffered sequence. *)
Definition pending (p : gset (string * Z * string)) (h : gmap nat Comment)
  (cs : list nat) : list Comment :=
  filter (λ cv, IsPosted p cv (LnumDiff cv) = false) (derefs h cs).

Definition newDrafts (p : gset (string * Z * string)) (h : gmap nat Comment)
  (cs : list nat) : list DraftReviewComment :=
  map draftOf (pending p h cs).

(** The slices that [postGitHubComments] cuts off, call after call. *)
Fixpoint batches (fuel : nat) (comments : list DraftReviewComment)
  : list (list DraftReviewComment) :=
  match fuel with
  | O => []
  | S fuel' =>
      if (len comments =? 0)%Z then []
      else
        take (Z.to_nat (min maxCommentsPerRequest (len comments))) comments
        :: (if (len comments >? maxCommentsPerRequest)%Z
            then batches fuel' (drop (Z.to_nat maxCommentsPerRequest) comments)
            else [])
  end.

Definition batchesOf (comments : list DraftReviewComment) :=
  batches (S (length comments)) comments.

Definition reviewOf (g : GitHubPullRequest) (b : list DraftReviewComment)
  : PullRequestReviewRequest :=
  mkReview (Some (sha g)) (Some "COMMENT") b.

(** The trace of a run in which every submission of [bs] succeeds. *)
Fixpoint schedule (g : GitHubPullRequest) (bs : list (list DraftReviewComment))
  (cnt : Z) : list Event :=
  match bs with
  | [] => []
  | b :: bs' =>
      EvCreateReview (reviewOf g b)
      :: match bs' with
         | [] => []
         | _ :: _ =>
             EvSleep (durationOf (secondsOf (cnt + 1))) :: schedule g bs' (cnt + 1)
         end
  end.

Definition reviewsOf (tr : list Event) : list PullRequestReviewRequest :=
  omap (λ e, match e with EvCreateReview r => Some r | _ => None end) tr.

Definition sleepsOf (tr : list Event) : list Z :=
  omap (λ e, match e with EvSleep s => Some s | _ => None end) tr.

(** The draft comments that the submissions of a trace carried. *)
Definition created (tr : list Event) : list DraftReviewComment :=
  mjoin (map Comments (reviewsOf tr)).

(** A remote comment with all three fields, equal to the given ones. *)
Definition holds (cs : list PullRequestComment) (path : string) (pos : Z)
  (body : string) : Prop :=
  ∃ c, c ∈ cs ∧ prPath c = Some path ∧ prPosition c = Some pos
       ∧ prBody c = Some body.

Definition present (cs : list PullRequestComment) (d : DraftReviewComment)
  : Prop :=
  ∃ c, c ∈ cs ∧ prPath c = drPath d ∧ prPosition c = drPosition d
       ∧ prBody c = drBody d.

Definition withPosted (p : gset (string * Z * string)) (m : Machine W)
  : Machine W :=
  mkMachine (remote m) (mem m) (setPostedcs (svc m) p) (log m).

End Service.

End Github.

(** ** The check computer ([Checker.Check], used by [doghouse_test.go]) *)
Module Doghouse.
Import Difffilter.

Record Annotation : Type := mkAnnotation {
  Path : string; Line : Z; Message : string; RawMessage : string
}.

Record CheckRequest : Type := mkCheckRequest {
  Name : string; Owner : string; Repo : string; PullRequest : Z;
  SHA : string; Annotations : list Annotation; Level : string
}.

(** [CheckedResults] is a slice: [None] is nil. *)
Record CheckResponse : Type := mkCheckResponse {
  ReportURL : string;
  CheckedResults : option (list Reviewdog.FilteredCheck)
}.

Record CheckRunAnnotation : Type := mkCheckRunAnnotation {
  caPath : string; StartLine : Z; EndLine : Z; AnnotationLevel : string;
  caMessage : string; Title : string; RawDetails : string
}.

Record CreateCheckRunOptions : Type := mkCreateCheckRunOptions {
  crName : string; HeadSHA : string; Conclusion : string;
  OutputAnnotations : list CheckRunAnnotation
}.

Record CheckRun : Type := mkCheckRun { HTMLURL : option string }.

Definition GetHTMLURL (c : CheckRun) : string := default "" (HTMLURL c).

(** The interface the test doubles of [doghouse_test.go] implement. *)
Class checkerGitHubClientInterface (W : Type) : Type := {
  GetPullRequestDiff : W → string → string → Z → W * (error + string);
  CreateCheckRun : W → string → string → CreateCheckRunOptions →
                   W * (error + CheckRun)
}.

(** What the spec leaves to collaborators or to policy: the diff parser
    (6: it returns the parsed files and no error) and the table from the
    level and the kept findings to a conclusion (9, open question). *)
Class Policy : Type := {
  ParseMultiFile : string → list FileDiff;
  conclusionOf : string → list Reviewdog.FilteredCheck → string
}.

(** Modelled from the spec: a permission or rate-limit rejection, the
    HTTP 403 class (4.4, step 6). *)
Definition is403 (err : error) : bool :=
  match err with
  | ErrorResponse code => (code =? StatusForbidden)%Z
  | AbuseRateLimitError _ => true
  | errorString _ => false
  end.

Definition annotationToCheckResult (a : Annotation) : Reviewdog.CheckResult :=
  Reviewdog.mkCheckResult (Path a) (Line a) (Message a) (RawMessage a).

(** Modelled from the spec: step 3 of 4.4; the shape of the title is the one
    [TestCheck_OK] expects. *)
Definition toCheckRunAnnotation (req : CheckRequest) (c : Reviewdog.FilteredCheck)
  : CheckRunAnnotation :=
  let r := Reviewdog.CheckResult_ c in
  mkCheckRunAnnotation (Reviewdog.Path r) (Reviewdog.Lnum r) (Reviewdog.Lnum r)
    (Level req) (Reviewdog.Message r)
    ("[" +:+ Name req +:+ "] " +:+ Reviewdog.Path r +:+ "#L" +:+ pretty (Reviewdog.Lnum r))
    (Reviewdog.RawMessage r).

Section Checker.
Context {W : Type} {gh : checkerGitHubClientInterface W} {policy : Policy}.

(** Modelled from the spec: step 2 of 4.4, with the strip depth of a
    pull-request diff (6) and the default mode (8: the added lines). *)
Definition filterAnnotations (req : CheckRequest) (raw : string)
  : list Reviewdog.FilteredCheck :=
  Reviewdog.FilterCheck (map annotationToCheckResult (Annotations req))
    (ParseMultiFile raw) 1 "" ModeAdded.

Definition checkRunOptions (req : CheckRequest)
  (filtered : list Reviewdog.FilteredCheck) : CreateCheckRunOptions :=
  mkCreateCheckRunOptions (Name req) (SHA req)
    (conclusionOf (Level req) filtered)
    (map (toCheckRunAnnotation req) (filter (λ c, Reviewdog.InDiff c = true) filtered)).

(** Modelled from the spec: [Check], steps 1 to 6 of 4.4.  The result is
    Go's pair of a response pointer and an error. *)
Definition Check (req : CheckRequest) (w : W)
  : W * (option CheckResponse * option error) :=
  let '(w1, d) := GetPullRequestDiff w (Owner req) (Repo req) (PullRequest req) in
  match d with
  | inl err => (w1, (None, Some err))
  | inr raw =>
      let filtered := filterAnnotations req raw in
      let '(w2, r) :=
        CreateCheckRun w1 (Owner req) (Repo req) (checkRunOptions req filtered) in
      match r with
      | inl err =>
          if is403 err then (w2, (Some (mkCheckResponse "" (Some filtered)), None))
          else (w2, (None, Some err))
      | inr check =>
          (w2, (Some (mkCheckResponse (GetHTMLURL check) (Some filtered)), None))
      end
  end.



End Checker.

End Doghouse.

(** ** Test doubles *)
Module Doubles.
Import Doghouse.

(** The doubles of [doghouse_test.go]: the diff fetch and the check-run
    creation answer with fixed results; the world is a unit. *)
Definition fakeCheckerGitHubCli (diff : error + string) (check : error + CheckRun)
  : checkerGitHubClientInterface unit :=
  {| GetPullRequestDiff := λ w _ _ _, (w, diff);
     CreateCheckRun := λ w _ _ _, (w, check) |}.

Definition fakePolicy : Policy :=
  {| ParseMultiFile := λ _, Reviewdog.sampleDiff;
     conclusionOf := λ _ _, "neutral" |}.

Definition emptyRequest : CheckRequest := mkCheckRequest "" "" "" 0 "" [] "".

(** Doubles for the comment service.  The world is the list of comments on
    the pull request; it is listed in one page. *)
Import Github.

Definition fakeHelpers : Helpers :=
  {| CommentBody := λ c, "**[" +:+ ToolName c +:+ "]** " +:+ Body c;
     filepath_Join := Paths.joinDir;
     filepath_ToSlash := λ p, p;
     LinkedMarkdownCheckResult := λ _ _ _ r, Reviewdog.Path r;
     intOfFloatOverflow := - 2 ^ 63 |}.

Definition asRemote (d : DraftReviewComment) : PullRequestComment :=
  mkPRComment (drPath d) (drPosition d) (drBody d).

(** Accepts every review and shows its comments from then on. *)
Definition acceptingCli : Client (list PullRequestComment) :=
  {| ListComments := λ w _ _ _ _, (w, inr (w, mkResponse 0));
     CreateReview := λ w _ _ _ rv, (w ++ map asRemote (Comments rv), None) |}.

(** Rejects every review as abuse. *)
Definition abuse : error :=
  AbuseRateLimitError "You have triggered an abuse detection mechanism".

Definition rejectingCli : Client (list PullRequestComment) :=
  {| ListComments := λ w _ _ _ _, (w, inr (w, mkResponse 0));
     CreateReview := λ w _ _ _ _, (w, Some abuse) |}.

Definition sampleComment (n : nat) : Comment :=
  mkComment (Reviewdog.mkCheckResult "main.go" (Z.of_nat n) "message" "raw")
    "body" (Z.of_nat n) "lint".

Definition heapOf (n : nat) : gmap nat Comment :=
  list_to_map (map (λ i, (i, sampleComment i)) (seq 0 n)).

Definition service (dir : string) (buf : list nat) : GitHubPullRequest :=
  mkService "owner" "repo" 14 "1414" buf ∅ dir.

(** [n] comments, all buffered, and [w] on the remote side. *)
Definition machine (n : nat) (w : list PullRequestComment)
  : Machine (list PullRequestComment) :=
  mkMachine w (heapOf n) (service "" (seq 0 n)) [].

(** A remote comment with all its fields and an outdated one (no position). *)
Definition remoteMixed : list PullRequestComment :=
  [ mkPRComment (Some "main.go") (Some 0) (Some "**[lint]** body");
    mkPRComment (Some "main.go") None (Some "**[lint]** body") ].

(** The machine that a first [Flush] of three comments leaves, the first
    of them posted before. *)
Definition afterFirstFlush : Machine (list PullRequestComment) :=
  match @Flush _ acceptingCli fakeHelpers 1 (machine 3 remoteMixed) with
  | Ok _ m => m
  | _ => machine 3 remoteMixed
  end.


End Doubles.

(** ** More of the comment service: construction, callers, client shapes *)
Module GithubExtra.
Import Github.

(** [NewGitHubPullRequest]; [gitRelWorkdir] is what
    [serviceutil.GitRelWorkdir] answers, an error being given by its text
    (the only part of it that [fmt.Errorf] with [%v] uses).  The new
    service has no buffered comment and no index yet. *)
Definition NewGitHubPullRequest (gitRelWorkdir : string + string)
  (owner repo : string) (pr : Z) (sha : string) : error + GitHubPullRequest :=
  match gitRelWorkdir with
  | inl err =>
      inl (errorString ("GitHubPullRequest needs 'git' command: " +:+ err))
  | inr workDir => inr (mkService owner repo pr sha [] ∅ workDir)
  end.

Section Service.
Context {W : Type} {cli : Client W} {helpers : Helpers}.


(** What [Post] makes of a comment of the service [g]. *)
Definition posted (g : GitHubPullRequest) (cv : Comment) : Comment :=
  setPath cv (filepath_ToSlash (filepath_Join (wd g) (Path cv))).

(** The answers of the client to a listing that starts at [opts] in the
    world [w]: the pages it shows, the options of the requests, in order,
    and the world it ends in.  The page after a page is the one the
    response names, asked for with the same page size. *)
Inductive Paged (g : GitHubPullRequest)
  : W → ListOptions → list (list PullRequestComment) → list ListOptions → W → Prop :=
| Paged_last w opts cs resp w' :
    ListComments w (owner g) (repo g) (pr g) opts = (w', inr (cs, resp)) →
    NextPage resp = 0 →
    Paged g w opts [cs] [opts] w'
| Paged_next w opts cs resp w1 pages tr w' :
    ListComments w (owner g) (repo g) (pr g) opts = (w1, inr (cs, resp)) →
    NextPage resp ≠ 0 →
    Paged g w1 (mkListOptions (NextPage resp) (PerPage opts)) pages tr w' →
    Paged g w opts (cs :: pages) (opts :: tr) w'.

(** The same, for a listing that meets the error [e] at its last request. *)
Inductive PagedFail (g : GitHubPullRequest)
  : W → ListOptions → error → list ListOptions → W → Prop :=
| PagedFail_here w opts e w' :
    ListComments w (owner g) (repo g) (pr g) opts = (w', inl e) →
    PagedFail g w opts e [opts] w'
| PagedFail_later w opts cs resp w1 e tr w' :
    ListComments w (owner g) (repo g) (pr g) opts = (w1, inr (cs, resp)) →
    NextPage resp ≠ 0 →
    PagedFail g w1 (mkListOptions (NextPage resp) (PerPage opts)) e tr w' →
    PagedFail g w opts e (opts :: tr) w'.

(** The sum of the sleeps of a trace, in nanoseconds. *)
Definition totalSleep (tr : list Event) : Z := foldr Z.add 0 (sleepsOf tr).

(** The group of a tool in what [remainingCommentsSummary] collects. *)
Fixpoint groupOf (perTool : list (string * list Comment)) (tool : string)
  : option (list Comment) :=
  match perTool with
  | [] => None
  | (t, cs) :: rest => if String.eqb t tool then Some cs else groupOf rest tool
  end.

(** A Go map holds a group for a tool only once a comment of the tool has
    been added. *)
Definition nonempty (l : list Comment) : option (list Comment) :=
  if decide (l = []) then None else Some l.

End Service.

End GithubExtra.

(** ** More test doubles *)
Module Doubles2.
Import Github.

(** A remote side that shows its comments in pages, as GitHub does: page
    numbers start at 1 (0 asks for the first page too), and the response
    names the next page, or 0 after the last. *)
Definition pagedCli : Client (list (list PullRequestComment)) :=
  {| ListComments := λ w _ _ _ opts,
       let i := Z.to_nat (Z.max (Page opts) 1 - 1) in
       (w, inr (nth i w [],
                mkResponse (if (Z.of_nat (S i) <? len w)%Z
                            then Z.of_nat i + 2 else 0)));
     CreateReview := λ w _ _ _ _, (w, None) |}.

(** The same, except that the second page cannot be had. *)
Definition brokenPageCli : Client (list (list PullRequestComment)) :=
  {| ListComments := λ w o r n opts,
       if (Page opts =? 2)%Z then (w, inl (ErrorResponse 500))
       else @ListComments _ pagedCli w o r n opts;
     CreateReview := λ w _ _ _ _, (w, None) |}.

(** A remote side that always names a next page. *)
Definition endlessCli : Client unit :=
  {| ListComments := λ w _ _ _ _, (w, inr ([], mkResponse 7));
     CreateReview := λ w _ _ _ _, (w, None) |}.

Definition remoteComment (n : Z) : PullRequestComment :=
  mkPRComment (Some "main.go") (Some n) (Some "**[lint]** body").

Definition threePages : list (list PullRequestComment) :=
  [ [remoteComment 0; remoteComment 1]; [remoteComment 2]; [remoteComment 3] ].

Definition pagedMachine (n : nat) : Machine (list (list PullRequestComment)) :=
  mkMachine threePages (Doubles.heapOf n) (Doubles.service "" (seq 0 n)) [].

(** Comments of two tools, interleaved. *)
Definition toolComment (tool : string) (n : Z) : Comment :=
  mkComment (Reviewdog.mkCheckResult "main.go" n "message" "raw") "body" n tool.

Definition toolMachine : Machine (list PullRequestComment) :=
  mkMachine []
    (list_to_map [ (0%nat, toolComment "golint" 1); (1%nat, toolComment "vet" 2);
                   (2%nat, toolComment "golint" 3) ])
    (Doubles.service "" []) [].

(** The machines that a [Flush] of forty comments, accepted, and a [Flush]
    of one comment, rejected, leave. *)
Definition afterForty : Machine (list PullRequestComment) :=
  match @Flush _ Doubles.acceptingCli Doubles.fakeHelpers 1 (Doubles.machine 40 []) with
  | Ok _ m => m
  | _ => Doubles.machine 40 []
  end.

Definition afterRejected : Machine (list PullRequestComment) :=
  match @Flush _ Doubles.rejectingCli Doubles.fakeHelpers 1 (Doubles.machine 1 []) with
  | Ok _ m => m
  | _ => Doubles.machine 1 []
  end.

(** A service fresh from its constructor, working in [sub], and a machine
    around it with one comment not yet posted. *)
Definition freshService : GitHubPullRequest :=
  mkService "owner" "repo" 14 "1414" [] ∅ "sub".

Definition freshMachine : Machine (list PullRequestComment) :=
  mkMachine [] (Doubles.heapOf 3) freshService [].

End Doubles2.

(** * Properties *)

(** ** The filter *)
Module FilterProps.
Import Difffilter Reviewdog.

Lemma InDiff_added_context idx path lnum :
  (Difffilter.InDiff idx ModeAdded path lnum).1 = true →
  (Difffilter.InDiff idx ModeDiffContext path lnum).1 = true.
Proof.
  unfold Difffilter.InDiff.
  destruct (lookupLine idx path lnum) as [e|]; [|done].
  by destruct (isAdded (Kind e)).
Qed.

Lemma InDiff_added_position idx path lnum :
  (Difffilter.InDiff idx ModeAdded path lnum).1 = true →
  Difffilter.InDiff idx ModeAdded path lnum
  = Difffilter.InDiff idx ModeDiffContext path lnum.
Proof.
  unfold Difffilter.InDiff.
  destruct (lookupLine idx path lnum) as [e|]; [|done].
  by destruct (isAdded (Kind e)).
Qed.

Lemma filterOne_finding idx strip wd mode r :
  CheckResult_ (filterOne idx strip wd mode r) = r.
Proof. unfold filterOne. by destruct (Difffilter.InDiff _ _ _ _). Qed.

Lemma filterOne_InDiff idx strip wd mode r :
  InDiff (filterOne idx strip wd mode r)
  = (Difffilter.InDiff idx mode (Paths.normalizePath strip wd (Path r)) (Lnum r)).1.
Proof. unfold filterOne. by destruct (Difffilter.InDiff _ _ _ _). Qed.

Lemma kept_cons r results diff strip wd mode :
  kept (r :: results) diff strip wd mode
  = if InDiff (filterOne (BuildIndex diff) strip wd mode r)
    then r :: kept results diff strip wd mode
    else kept results diff strip wd mode.
Proof.
  unfold kept, FilterCheck. cbn [map].
  rewrite filter_cons.
  destruct (decide _) as [Hd|Hd].
  - rewrite Hd. cbn [map]. by rewrite filterOne_finding.
  - by destruct (InDiff _).
Qed.

Lemma kept_nofilter results diff strip wd :
  kept results diff strip wd ModeNoFilter = results.
Proof.
  induction results as [|r results IH]; [done|].
  rewrite kept_cons, filterOne_InDiff. cbn. by rewrite IH.
Qed.

Lemma kept_added_sublist results diff strip wd :
  kept results diff strip wd ModeAdded
    `sublist_of` kept results diff strip wd ModeDiffContext.
Proof.
  induction results as [|r results IH]; [done|].
  rewrite !kept_cons, !filterOne_InDiff.
  destruct (Difffilter.InDiff _ ModeAdded _ _).1 eqn:Ha.
  - rewrite (InDiff_added_context _ _ _ Ha). by apply sublist_skip.
  - destruct (Difffilter.InDiff _ ModeDiffContext _ _).1;
      [by apply sublist_cons | done].
Qed.

Lemma kept_context_sublist results diff strip wd :
  kept results diff strip wd ModeDiffContext `sublist_of` results.
Proof.
  induction results as [|r results IH]; [done|].
  rewrite kept_cons.
  destruct (InDiff _); [apply sublist_skip | apply sublist_cons]; exact IH.
Qed.

(** C1: on the two-file sample diff, the findings of
    [TestFilterCheckByAddedLines] come out of the [added] mode as: line 1 of
    sample.new.txt not in the diff, line 2 in the diff at position 3, line 1
    of nonewline.new.txt not in the diff, line 3 in the diff at position 5;
    and the findings of [TestFilterCheckByDiffContext] (lines 1, 2, 3 of
    sample.new.txt) come out of the [diff_context] mode all in the diff, at
    positions 1, 3 and 4.  The index itself maps line 2 of sample.new.txt to
    position 3 and line 3 of nonewline.new.txt to position 5, both on
    addition lines, and line 1 of either file to a context line. *)
Theorem sample_diff_positions :
  let s := "sample.new.txt" in
  let n := "nonewline.new.txt" in
  FilterCheck [res s 1; res s 2; res n 1; res n 3] sampleDiff 0 "" ModeAdded
  = [ mkFilteredCheck (res s 1) false 0;
      mkFilteredCheck (res s 2) true 3;
      mkFilteredCheck (res n 1) false 0;
      mkFilteredCheck (res n 3) true 5 ]
  ∧ FilterCheck [res s 1; res s 2; res s 3] sampleDiff 0 "" ModeDiffContext
    = [ mkFilteredCheck (res s 1) true 1;
        mkFilteredCheck (res s 2) true 3;
        mkFilteredCheck (res s 3) true 4 ]
  ∧ lookupLine (BuildIndex sampleDiff) s 2 = Some (mkEntry 3 LineAdded)
  ∧ lookupLine (BuildIndex sampleDiff) n 3 = Some (mkEntry 5 LineAdded)
  ∧ lookupLine (BuildIndex sampleDiff) s 1 = Some (mkEntry 1 LineUnchanged)
  ∧ lookupLine (BuildIndex sampleDiff) n 1 = Some (mkEntry 1 LineUnchanged)
  ∧ kept [res s 1; res s 2; res n 1; res n 3] sampleDiff 0 "" ModeAdded
    = [res s 2; res n 3]
  ∧ kept [res s 1; res s 2; res n 1; res n 3] sampleDiff 0 "" ModeDiffContext
    = [res s 1; res s 2; res n 1; res n 3].
Proof. cbv zeta. repeat split; vm_compute; reflexivity. Qed.

(** C7: for all findings and every diff (and every strip depth and working
    directory), what the [added] mode keeps is kept by the [diff_context]
    mode, and what [diff_context] keeps is kept by [nofilter]; the kept
    findings stay in their order, [nofilter] keeps every finding, and a
    finding kept by [added] gets the same diff position from
    [diff_context]. *)
Theorem mode_monotonicity (results : list CheckResult) (diff : list FileDiff)
  (strip : nat) (wd : string) :
  kept results diff strip wd ModeAdded
    `sublist_of` kept results diff strip wd ModeDiffContext
  ∧ kept results diff strip wd ModeDiffContext
    `sublist_of` kept results diff strip wd ModeNoFilter
  ∧ kept results diff strip wd ModeAdded ⊆ kept results diff strip wd ModeDiffContext
  ∧ kept results diff strip wd ModeDiffContext ⊆ kept results diff strip wd ModeNoFilter
  ∧ kept results diff strip wd ModeNoFilter = results
  ∧ (∀ c, c ∈ FilterCheck results diff strip wd ModeAdded → InDiff c = true →
          c ∈ FilterCheck results diff strip wd ModeDiffContext).
Proof.
  pose proof (kept_added_sublist results diff strip wd) as H1.
  pose proof (kept_context_sublist results diff strip wd) as H2.
  rewrite kept_nofilter.
  split_and!; try done.
  - by apply sublist_subseteq.
  - by apply sublist_subseteq.
  - intros c Hc Hin. unfold FilterCheck in *.
    apply list_elem_of_fmap in Hc as (r & -> & Hr).
    apply list_elem_of_fmap. exists r. split; [|done].
    rewrite filterOne_InDiff in Hin.
    unfold filterOne. by rewrite (InDiff_added_position _ _ _ Hin).
Qed.

End FilterProps.

(** ** The check computer *)
Module CheckProps.
Import Doghouse.

Section Checker.
Context {W : Type} {gh : checkerGitHubClientInterface W} {policy : Policy}.

(** C5: when the diff is fetched and the creation of the check run fails
    with an error of the 403 class, [Check] returns no error and a response
    whose [CheckedResults] is not nil (it holds the locally filtered
    findings) and whose report URL is empty. *)
Theorem Check_degrades_on_403 (req : CheckRequest) (w w1 w2 : W)
  (raw : string) (err : error) :
  GetPullRequestDiff w (Owner req) (Repo req) (PullRequest req) = (w1, inr raw) →
  CreateCheckRun w1 (Owner req) (Repo req)
    (checkRunOptions req (filterAnnotations req raw)) = (w2, inl err) →
  is403 err = true →
  Check req w
  = (w2, (Some (mkCheckResponse "" (Some (filterAnnotations req raw))), None)).
Proof.
  intros Hdiff Hcreate H403. unfold Check.
  rewrite Hdiff, Hcreate. by rewrite H403.
Qed.


End Checker.

(** The double of [TestCheck_fail_check_with_403]. *)
Lemma Check_degrades_on_403_witness :
  @Check unit
    (Doubles.fakeCheckerGitHubCli (inr "diff") (inl (ErrorResponse 403)))
    Doubles.fakePolicy Doubles.emptyRequest tt
  = (tt, (Some (mkCheckResponse "" (Some [])), None)).
Proof.
  apply (@Check_degrades_on_403 unit
           (Doubles.fakeCheckerGitHubCli (inr "diff") (inl (ErrorResponse 403)))
           Doubles.fakePolicy Doubles.emptyRequest tt tt tt "diff" (ErrorResponse 403));
    reflexivity.
Defined.

End CheckProps.

(** ** The comment service *)
Module GithubProps.
Import Github.

Ltac run :=
  unfold mbind, M_bind, mret, M_ret, bind, ret, load, store, getSvc,
    modifySvc, emit, sleep, outOfFuel in *.

Section Service.
Context {W : Type} {cli : Client W} {helpers : Helpers}.
Implicit Types (m : Machine W) (cs : list nat) (h : gmap nat Comment).
Implicit Types (comments : list DraftReviewComment).

(** *** The loop of [postAsReviewComment] *)

Lemma derefs_cons_live h c cv cs :
  h !! c = Some cv → derefs h (c :: cs) = cv :: derefs h cs.
Proof. intros Hc. unfold derefs. cbn. by rewrite Hc. Qed.

Lemma reviewLoop_run cs : ∀ m comments remaining,
  live (mem m) cs →
  reviewLoop cs comments remaining m
  = Ok (comments ++ newDrafts (postedcs (svc m)) (mem m) cs, remaining) m.
Proof.
  induction cs as [|c cs IH]; intros m comments remaining Hlive.
  - cbn. run. by rewrite app_nil_r.
  - apply Forall_cons in Hlive as [[cv Hc] Hlive].
    cbn [reviewLoop]. run. rewrite Hc.
    unfold newDrafts, pending. rewrite (derefs_cons_live _ _ _ _ Hc).
    rewrite filter_cons.
    destruct (IsPosted (postedcs (svc m)) cv (LnumDiff cv)) eqn:Hp.
    + rewrite decide_False by done. by apply IH.
    + rewrite decide_True by done.
      rewrite andb_false_r. rewrite IH by done.
      cbn [map]. by rewrite <- app_assoc.
Qed.

(** *** Batches *)

Lemma len_zero {A} (l : list A) : (len l =? 0)%Z = true ↔ l = [].
Proof.
  unfold len. rewrite Z.eqb_eq. destruct l; cbn; [done|]. split; [lia|done].
Qed.

Lemma len_gt {A} (l : list A) :
  (len l >? maxCommentsPerRequest)%Z = true ↔ (25 < length l)%nat.
Proof. unfold len, maxCommentsPerRequest. rewrite Z.gtb_gt. lia. Qed.

Lemma take_min {A} (l : list A) :
  take (Z.to_nat (min maxCommentsPerRequest (len l))) l = take 25 l.
Proof.
  unfold min, len, maxCommentsPerRequest.
  destruct (25 >? Z.of_nat (length l))%Z eqn:Hgt.
  - apply Z.gtb_gt in Hgt. rewrite Nat2Z.id.
    rewrite !take_ge; [done | lia | lia].
  - done.
Qed.

Lemma batches_step fuel comments :
  batches (S fuel) comments
  = if (len comments =? 0)%Z then []
    else take 25 comments
         :: (if (len comments >? maxCommentsPerRequest)%Z
             then batches fuel (drop 25 comments) else []).
Proof. cbn [batches]. by rewrite take_min. Qed.

Lemma batches_join fuel : ∀ comments,
  (length comments < fuel)%nat → mjoin (batches fuel comments) = comments.
Proof.
  induction fuel as [|fuel IH]; intros comments Hlen; [lia|].
  rewrite batches_step.
  destruct (len comments =? 0)%Z eqn:Hz.
  { apply len_zero in Hz. by subst. }
  destruct (len comments >? maxCommentsPerRequest)%Z eqn:Hgt.
  - apply len_gt in Hgt. cbn [mjoin list_join].
    rewrite IH by (rewrite length_drop; lia).
    apply take_drop.
  - cbn. rewrite app_nil_r. apply take_ge.
    assert (¬ (25 < length comments)%nat) by (rewrite <- len_gt; congruence).
    lia.
Qed.

Lemma batches_bound fuel : ∀ comments,
  Forall (λ b, (0 < length b ≤ 25)%nat) (batches fuel comments).
Proof.
  induction fuel as [|fuel IH]; intros comments; [constructor|].
  rewrite batches_step.
  destruct (len comments =? 0)%Z eqn:Hz; [constructor|].
  assert (comments ≠ []) as Hne.
  { intros ->. by rewrite (proj2 (len_zero [])) in Hz. }
  constructor.
  - rewrite length_take. destruct comments; [done|]. cbn [length]. lia.
  - destruct (len comments >? maxCommentsPerRequest)%Z; [apply IH | constructor].
Qed.

Lemma batches_40 comments :
  length comments = 40%nat →
  batchesOf comments = [take 25 comments; drop 25 comments].
Proof.
  intros Hlen. unfold batchesOf. rewrite batches_step.
  destruct (len comments =? 0)%Z eqn:Hz.
  { apply len_zero in Hz. subst. done. }
  rewrite (proj2 (len_gt comments)) by lia.
  rewrite Hlen. rewrite batches_step.
  destruct (len (drop 25 comments) =? 0)%Z eqn:Hz'.
  { apply len_zero in Hz'. apply (f_equal length) in Hz'.
    rewrite length_drop in Hz'. cbn in Hz'. lia. }
  destruct (len (drop 25 comments) >? maxCommentsPerRequest)%Z eqn:Hgt.
  { apply len_gt in Hgt. rewrite length_drop in Hgt. lia. }
  rewrite (take_ge (drop 25 comments)) by (rewrite length_drop; lia). done.
Qed.

(** *** [postGitHubComments] *)

Lemma schedule_cons g b bs cnt :
  schedule g (b :: bs) cnt
  = EvCreateReview (reviewOf g b)
    :: match bs with
       | [] => []
       | _ :: _ =>
           EvSleep (durationOf (secondsOf (cnt + 1))) :: schedule g bs (cnt + 1)
       end.
Proof. done. Qed.

Lemma post_rec_run fuel : ∀ comments cnt m,
  (length comments < fuel)%nat →
  ∃ r m' tr,
    postGitHubComments_rec fuel comments cnt m = Ok r m'
    ∧ mem m' = mem m ∧ svc m' = svc m ∧ log m' = log m ++ tr
    ∧ tr `prefix_of` schedule (svc m) (batches fuel comments) cnt
    ∧ (r = None → tr = schedule (svc m) (batches fuel comments) cnt)
    ∧ (∀ e, r = Some e →
         ∃ tr0 rv w0,
           tr = tr0 ++ [EvCreateReview rv]
           ∧ CreateReview w0 (owner (svc m)) (repo (svc m)) (pr (svc m)) rv
             = (remote m', Some e)).
Proof.
  induction fuel as [|fuel IH]; intros comments cnt m Hlen; [lia|].
  rewrite batches_step. cbn [postGitHubComments_rec].
  destruct (len comments =? 0)%Z eqn:Hz.
  { exists None, m, []. run. rewrite app_nil_r. by split_and!. }
  run. unfold callCreateReview. rewrite take_min.
  fold (reviewOf (svc m) (take 25 comments)).
  destruct (CreateReview (remote m) (owner (svc m)) (repo (svc m)) (pr (svc m))
              (reviewOf (svc m) (take 25 comments))) as [w' [e|]] eqn:Hcall.
  { eexists (Some e), _, [EvCreateReview _]. split_and!; try done.
    - by apply prefix_cons, prefix_nil.
    - intros e' [= <-]. by exists [], (reviewOf (svc m) (take 25 comments)), (remote m). }
  destruct (len comments >? maxCommentsPerRequest)%Z eqn:Hgt.
  - apply len_gt in Hgt.
    set (m1 := mkMachine w' (mem m) (svc m)
                 ((log m ++ [EvCreateReview (reviewOf (svc m) (take 25 comments))])
                  ++ [EvSleep (durationOf (secondsOf (cnt + 1)))])).
    destruct (IH (drop 25 comments) (cnt + 1) m1) as (r & m' & tr & Hrun & Hm & Hs & Hl & Hp & Hn & He).
    { rewrite length_drop. lia. }
    assert (batches fuel (drop 25 comments) ≠ []) as Hne.
    { destruct fuel as [|fuel']; [lia|]. rewrite batches_step.
      destruct (len (drop 25 comments) =? 0)%Z eqn:Hz'; [|done].
      apply len_zero in Hz'. apply (f_equal length) in Hz'.
      rewrite length_drop in Hz'. cbn in Hz'. lia. }
    exists r, m',
      (EvCreateReview (reviewOf (svc m) (take 25 comments))
       :: EvSleep (durationOf (secondsOf (cnt + 1))) :: tr).
    change (Z.to_nat maxCommentsPerRequest) with 25%nat.
    split_and!.
    + exact Hrun.
    + by rewrite Hm.
    + by rewrite Hs.
    + rewrite Hl. subst m1. cbn [log]. by rewrite <- !app_assoc.
    + destruct (batches fuel (drop 25 comments)) as [|b bs] eqn:Hb; [done|].
      by apply prefix_cons, prefix_cons.
    + intros Hr. rewrite (Hn Hr).
      by destruct (batches fuel (drop 25 comments)).
    + intros e Hr. destruct (He e Hr) as (tr0 & rv & w0 & -> & Hfail).
      by exists (EvCreateReview (reviewOf (svc m) (take 25 comments))
                 :: EvSleep (durationOf (secondsOf (cnt + 1))) :: tr0), rv, w0.
  - eexists None, _, [EvCreateReview _]. by split_and!.
Qed.

(** *** Listing the remote comments *)

Lemma reviewsOf_app tr1 tr2 : reviewsOf (tr1 ++ tr2) = reviewsOf tr1 ++ reviewsOf tr2.
Proof. apply omap_app. Qed.

Lemma sleepsOf_app tr1 tr2 : sleepsOf (tr1 ++ tr2) = sleepsOf tr1 ++ sleepsOf tr2.
Proof. apply omap_app. Qed.

Lemma created_app tr1 tr2 : created (tr1 ++ tr2) = created tr1 ++ created tr2.
Proof. unfold created. by rewrite reviewsOf_app, map_app, join_app. Qed.

Lemma listAll_frame fuel : ∀ opts m x m1,
  listAllPullRequestsComments fuel opts m = Ok x m1 →
  mem m1 = mem m ∧ svc m1 = svc m
  ∧ ∃ trl, log m1 = log m ++ trl ∧ reviewsOf trl = [] ∧ sleepsOf trl = [].
Proof.
  induction fuel as [|fuel IH]; intros opts m x m1; [done|].
  cbn [listAllPullRequestsComments]. run. unfold callListComments.
  destruct (ListComments _ _ _ _ _) as [w' [e|[comments resp]]].
  { intros [= <- <-]. split_and!; [done..|]. by exists [EvListComments opts]. }
  destruct (NextPage resp =? 0)%Z.
  { intros [= <- <-]. split_and!; [done..|]. by exists [EvListComments opts]. }
  destruct (listAllPullRequestsComments fuel _ _) as [r' m2| |] eqn:Hrec; [|done..].
  apply IH in Hrec as (Hm & Hs & trl & Hl & Hr & Hsl).
  cbn [mem svc log] in *.
  assert (mem m2 = mem m ∧ svc m2 = svc m
          ∧ ∃ trl, log m2 = log m ++ trl ∧ reviewsOf trl = [] ∧ sleepsOf trl = [])
    as Hgoal.
  { split_and!; [done..|]. exists (EvListComments opts :: trl).
    rewrite Hl, <- app_assoc. split_and!; [done| |]; cbn; done. }
  destruct r'; intros [= <- <-]; exact Hgoal.
Qed.

Lemma listAll_posted fuel p : ∀ opts m x m1,
  listAllPullRequestsComments fuel opts m = Ok x m1 →
  listAllPullRequestsComments fuel opts (withPosted p m) = Ok x (withPosted p m1).
Proof.
  induction fuel as [|fuel IH]; intros opts m x m1; [done|].
  cbn [listAllPullRequestsComments]. run. unfold callListComments.
  cbn [withPosted remote svc mem log setPostedcs owner repo pr].
  destruct (ListComments _ _ _ _ _) as [w' [e|[comments resp]]].
  { by intros [= <- <-]. }
  destruct (NextPage resp =? 0)%Z.
  { by intros [= <- <-]. }
  destruct (listAllPullRequestsComments fuel _ _) as [r' m2| |] eqn:Hrec; [|done..].
  apply IH in Hrec. unfold withPosted in Hrec at 1.
  cbn [remote svc mem log] in Hrec. rewrite Hrec.
  by destruct r'; intros [= <- <-].
Qed.

(** *** The posted-comment index *)

Lemma addPosted_spec s c path pos body :
  (path, pos, body) ∈ addPosted s c
  ↔ (path, pos, body) ∈ s
    ∨ (prPath c = Some path ∧ prPosition c = Some pos ∧ prBody c = Some body).
Proof.
  unfold addPosted, AddPostedComment, GetPath, GetPosition, GetBody.
  destruct c as [[pa|] [po|] [bo|]]; cbn; try (split; [tauto | intros [?|(?&?&?)]; [done|congruence]]).
  rewrite elem_of_union, elem_of_singleton. split.
  - intros [[= -> -> ->]|?]; [by right | by left].
  - intros [?|([= ->] & [= ->] & [= ->])]; [by right | by left].
Qed.

Lemma index_spec rcs : ∀ s path pos body,
  (path, pos, body) ∈ foldl addPosted s rcs
  ↔ (path, pos, body) ∈ s ∨ holds rcs path pos body.
Proof.
  induction rcs as [|c rcs IH]; intros s path pos body; cbn [foldl].
  - split; [by left|]. intros [?|(c & Hc & _)]; [done|]. by apply elem_of_nil in Hc.
  - rewrite IH, addPosted_spec. unfold holds. split.
    + intros [[?|Hc]|(c' & Hin & Hf)].
      * by left.
      * right. exists c. split; [apply list_elem_of_here | done].
      * right. exists c'. split; [by apply list_elem_of_further | done].
    + intros [?|(c' & Hin & Hf)]; [by left; left|].
      apply elem_of_cons in Hin as [->|Hin]; [by left; right|].
      right. by exists c'.
Qed.

Lemma setPostedComment_run fuel m rcs m1 :
  comment fuel m = Ok (inr rcs) m1 →
  setPostedComment fuel m = Ok None (withPosted (foldl addPosted ∅ rcs) m1).
Proof.
  intros Hc. unfold setPostedComment, comment in *. run.
  apply (listAll_posted _ ∅) in Hc. unfold withPosted in Hc at 1.
  rewrite Hc. done.
Qed.

Lemma setPostedComment_fail fuel m e m1 :
  comment fuel m = Ok (inl e) m1 →
  setPostedComment fuel m = Ok (Some e) (withPosted ∅ m1).
Proof.
  intros Hc. unfold setPostedComment, comment in *. run.
  apply (listAll_posted _ ∅) in Hc. unfold withPosted in Hc at 1.
  rewrite Hc. done.
Qed.

(** *** [postAsReviewComment] and [Flush] *)

Lemma schedule_sha g g' bs : ∀ cnt,
  sha g = sha g' → schedule g bs cnt = schedule g' bs cnt.
Proof.
  induction bs as [|b bs IH]; intros cnt Hsha; [done|].
  rewrite !schedule_cons. unfold reviewOf. rewrite Hsha.
  destruct bs as [|b' bs']; [done|]. by rewrite (IH _ Hsha).
Qed.

Lemma schedule_reviews g bs : ∀ cnt,
  map Comments (reviewsOf (schedule g bs cnt)) = bs.
Proof.
  induction bs as [|b bs IH]; intros cnt; [done|].
  rewrite schedule_cons. destruct bs as [|b' bs']; [done|].
  change (map Comments (reviewsOf (EvCreateReview (reviewOf g b)
            :: EvSleep (durationOf (secondsOf (cnt + 1))) :: schedule g (b' :: bs') (cnt + 1))))
    with (b :: map Comments (reviewsOf (schedule g (b' :: bs') (cnt + 1)))).
  by rewrite IH.
Qed.

Lemma schedule_sleeps g bs : ∀ cnt,
  sleepsOf (schedule g bs cnt)
  = map (λ k : nat, durationOf (secondsOf (cnt + Z.of_nat k)))
      (seq 1 (length bs - 1)).
Proof.
  induction bs as [|b bs IH]; intros cnt; [done|].
  rewrite schedule_cons. destruct bs as [|b' bs']; [done|].
  change (sleepsOf (EvCreateReview (reviewOf g b)
            :: EvSleep (durationOf (secondsOf (cnt + 1))) :: schedule g (b' :: bs') (cnt + 1)))
    with (durationOf (secondsOf (cnt + 1)) :: sleepsOf (schedule g (b' :: bs') (cnt + 1))).
  rewrite IH.
  replace (length (b' :: bs') - 1)%nat with (length bs') by (cbn [length]; lia).
  replace (length (b :: b' :: bs') - 1)%nat with (S (length bs'))
    by (cbn [length]; lia).
  rewrite <- cons_seq. rewrite <- (seq_shift (length bs') 1).
  cbn [map]. rewrite List.map_map. f_equal.
  apply List.map_ext. intros k. do 2 f_equal. lia.
Qed.

Lemma prefix_reviews tr1 tr2 :
  tr1 `prefix_of` tr2 →
  map Comments (reviewsOf tr1) `prefix_of` map Comments (reviewsOf tr2).
Proof.
  intros [k ->]. rewrite reviewsOf_app, map_app. by eexists.
Qed.

Lemma prefix_created tr1 tr2 :
  tr1 `prefix_of` tr2 → created tr1 `prefix_of` created tr2.
Proof. intros [k ->]. rewrite created_app. by eexists. Qed.

Lemma postAsReviewComment_run m :
  live (mem m) (postComments (svc m)) →
  ∃ r m' tr,
    postAsReviewComment m = Ok r m'
    ∧ mem m' = mem m ∧ svc m' = svc m ∧ log m' = log m ++ tr
    ∧ tr `prefix_of`
        schedule (svc m)
          (batchesOf (newDrafts (postedcs (svc m)) (mem m) (postComments (svc m)))) 0
    ∧ (r = None →
       tr = schedule (svc m)
              (batchesOf (newDrafts (postedcs (svc m)) (mem m) (postComments (svc m)))) 0)
    ∧ (∀ e, r = Some e →
         ∃ tr0 rv w0,
           tr = tr0 ++ [EvCreateReview rv]
           ∧ CreateReview w0 (owner (svc m)) (repo (svc m)) (pr (svc m)) rv
             = (remote m', Some e)).
Proof.
  intros Hlive. unfold postAsReviewComment. run.
  rewrite reviewLoop_run by done. cbn [fst app].
  unfold postGitHubComments.
  apply post_rec_run. lia.
Qed.

Lemma comment_frame fuel m x m1 :
  comment fuel m = Ok x m1 →
  mem m1 = mem m ∧ svc m1 = svc m
  ∧ ∃ trl, log m1 = log m ++ trl ∧ reviewsOf trl = [] ∧ sleepsOf trl = [].
Proof. apply listAll_frame. Qed.

Lemma Flush_run fuel m rcs m1 :
  live (mem m) (postComments (svc m)) →
  comment fuel m = Ok (inr rcs) m1 →
  ∃ r m' tr,
    Flush fuel m = Ok r m'
    ∧ mem m' = mem m
    ∧ svc m' = setPostedcs (svc m) (foldl addPosted ∅ rcs)
    ∧ log m' = log m1 ++ tr
    ∧ tr `prefix_of`
        schedule (svc m)
          (batchesOf (newDrafts (foldl addPosted ∅ rcs) (mem m) (postComments (svc m)))) 0
    ∧ (r = None →
       tr = schedule (svc m)
              (batchesOf (newDrafts (foldl addPosted ∅ rcs) (mem m) (postComments (svc m)))) 0)
    ∧ (∀ e, r = Some e →
         ∃ tr0 rv w0,
           tr = tr0 ++ [EvCreateReview rv]
           ∧ CreateReview w0 (owner (svc m)) (repo (svc m)) (pr (svc m)) rv
             = (remote m', Some e)).
Proof.
  intros Hlive Hc.
  destruct (comment_frame _ _ _ _ Hc) as (Hm & Hs & _).
  unfold Flush. run. rewrite (setPostedComment_run _ _ _ _ Hc).
  set (m2 := withPosted (foldl addPosted ∅ rcs) m1).
  destruct (postAsReviewComment_run m2) as (r & m' & tr & Hrun & Hm' & Hs' & Hl & Hp & Hn & He).
  { subst m2. cbn. by rewrite Hm, Hs. }
  exists r, m', tr. subst m2.
  cbn [withPosted mem svc log setPostedcs postComments postedcs] in *.
  rewrite Hm, Hs in *.
  rewrite (schedule_sha _ (svc m)) in Hp, Hn by done.
  split_and!; first [done | by rewrite Hs'].
Qed.

Lemma Flush_listing_fails fuel m e m1 :
  comment fuel m = Ok (inl e) m1 →
  Flush fuel m = Ok (Some e) (withPosted ∅ m1).
Proof.
  intros Hc. unfold Flush. run. by rewrite (setPostedComment_fail _ _ _ _ Hc).
Qed.

(** A client that accepts every review makes every submission succeed. *)
Lemma post_rec_accept fuel : ∀ comments cnt m r m',
  (∀ w o rp n rv, (CreateReview w o rp n rv).2 = None) →
  postGitHubComments_rec fuel comments cnt m = Ok r m' → r = None.
Proof.
  induction fuel as [|fuel IH]; intros comments cnt m r m' Hacc; [done|].
  cbn [postGitHubComments_rec].
  destruct (len comments =? 0)%Z; [by intros [= <- _]|].
  run. unfold callCreateReview.
  match goal with
  | |- context [CreateReview ?w ?o ?rp ?n ?rv] =>
      pose proof (Hacc w o rp n rv) as Ha;
      destruct (CreateReview w o rp n rv) as [w' err]
  end.
  cbn in Ha. subst err.
  destruct (len comments >? maxCommentsPerRequest)%Z; [|by intros [= <- _]].
  by apply IH.
Qed.

Lemma durationOf_seconds k :
  0 ≤ k ≤ 33 → durationOf (secondsOf k) = 2 ^ k * Second.
Proof.
  intros Hk. unfold secondsOf, durationOf, wrap64, Second.
  rewrite (proj2 (Z.leb_le k 62)) by lia.
  assert (0 < 2 ^ k ≤ 2 ^ 33) as Hpow.
  { split; [apply Z.pow_pos_nonneg; lia | apply Z.pow_le_mono_r; lia]. }
  change (2 ^ 33) with 8589934592 in Hpow.
  change (2 ^ 63) with 9223372036854775808.
  change (2 ^ 64) with 18446744073709551616.
  rewrite Z.mod_small by lia. lia.
Qed.

(** *** The claims about the service *)

(** C8: [setPostedComment] skips every remote comment whose position, path
    or body is nil, and adds every other one under its path, position and
    body: after it, the index holds a triple exactly when some listed
    comment has all three fields, equal to the triple; a buffered comment
    counts as posted exactly when such a remote comment matches its path,
    the given position and its comment body. *)
Theorem setPostedComment_index fuel m (rcs : list PullRequestComment) m1 :
  comment fuel m = Ok (inr rcs) m1 →
  ∃ m2,
    setPostedComment fuel m = Ok None m2
    ∧ (∀ path pos body,
         (path, pos, body) ∈ postedcs (svc m2) ↔ holds rcs path pos body)
    ∧ (∀ cv k, IsPosted (postedcs (svc m2)) cv k = true
               ↔ holds rcs (Path cv) k (CommentBody cv))
    ∧ (∀ s c, prPosition c = None ∨ prPath c = None ∨ prBody c = None →
              addPosted s c = s)
    ∧ (∀ s c path pos body,
         prPath c = Some path → prPosition c = Some pos → prBody c = Some body →
         addPosted s c = {[ (path, pos, body) ]} ∪ s).
Proof.
  intros Hc. eexists. split; [by apply setPostedComment_run|].
  cbn [withPosted svc setPostedcs postedcs].
  assert (∀ path pos body,
            (path, pos, body) ∈ foldl addPosted ∅ rcs ↔ holds rcs path pos body)
    as Hidx.
  { intros path pos body. rewrite index_spec. split; [|by right].
    intros [Hin|?]; [|done]. by apply not_elem_of_empty in Hin. }
  split_and!.
  - exact Hidx.
  - intros cv k. unfold IsPosted. rewrite bool_decide_eq_true. apply Hidx.
  - intros s [pa po bo] Hnil. unfold addPosted. cbn in *.
    destruct po; [|done]. destruct pa; [|done]. destruct bo; [|done].
    by destruct Hnil as [?|[?|?]].
  - intros s [pa po bo] path pos body. cbn. by intros -> -> ->.
Qed.

(** C9: the overflow branch of [postAsReviewComment] is never taken.  For
    every machine with a live buffer the loop leaves [remaining] as it
    found it (empty, from the empty slice it starts with) and appends to
    [comments] the draft of every buffered comment that is not posted yet,
    however many there are; the summary of the empty [remaining] is the
    empty text. *)
Theorem overflow_branch_unreachable m :
  live (mem m) (postComments (svc m)) →
  reviewLoop (postComments (svc m)) [] [] m
  = Ok (newDrafts (postedcs (svc m)) (mem m) (postComments (svc m)), []) m
  ∧ (∀ comments remaining,
       ∃ comments', reviewLoop (postComments (svc m)) comments remaining m
                    = Ok (comments', remaining) m)
  ∧ (∀ c cv, c ∈ postComments (svc m) → mem m !! c = Some cv →
             IsPosted (postedcs (svc m)) cv (LnumDiff cv) = false →
             draftOf cv ∈ newDrafts (postedcs (svc m)) (mem m) (postComments (svc m)))
  ∧ length (newDrafts (postedcs (svc m)) (mem m) (postComments (svc m)))
    = length (pending (postedcs (svc m)) (mem m) (postComments (svc m)))
  ∧ remainingCommentsSummary [] m = Ok "" m.
Proof.
  intros Hlive. split_and!.
  - by rewrite reviewLoop_run.
  - intros comments remaining. eexists. by rewrite reviewLoop_run.
  - intros c cv Hin Hc Hp. unfold newDrafts, pending, derefs.
    apply list_elem_of_fmap_2, list_elem_of_filter. split; [done|].
    apply list_elem_of_omap. by exists c.
  - unfold newDrafts. apply length_map.
  - done.
Qed.

(** C3: a [Flush] whose listing returns submits the drafts of the pending
    comments in slices: every review carries between 1 and 25 comments, and
    the comments of the reviews, put end to end, are a prefix of the pending
    drafts; when [Flush] returns nil they are all of them, cut as
    [batchesOf] cuts, and the k-th sleep is the one computed for the
    attempt counter k, which starts at 1: 2^k seconds (for every k up to
    33, beyond which the duration no longer fits 64 bits).  With 40 pending
    drafts and nil returned, the run is: a review of the first 25, a sleep
    of 2 seconds, a review of the last 15.  A client that accepts every
    review makes [Flush] return nil. *)
Theorem Flush_batches fuel m (rcs : list PullRequestComment) m1 :
  live (mem m) (postComments (svc m)) →
  comment fuel m = Ok (inr rcs) m1 →
  ∃ r m' tr,
    Flush fuel m = Ok r m' ∧ log m' = log m1 ++ tr
    ∧ Forall (λ rv, (0 < length (Comments rv) ≤ 25)%nat) (reviewsOf tr)
    ∧ created tr
        `prefix_of` newDrafts (foldl addPosted ∅ rcs) (mem m) (postComments (svc m))
    ∧ (r = None →
       created tr = newDrafts (foldl addPosted ∅ rcs) (mem m) (postComments (svc m))
       ∧ map Comments (reviewsOf tr)
         = batchesOf (newDrafts (foldl addPosted ∅ rcs) (mem m) (postComments (svc m)))
       ∧ sleepsOf tr
         = map (λ k : nat, durationOf (secondsOf (Z.of_nat k)))
             (seq 1 (length (reviewsOf tr) - 1)))
    ∧ (∀ k, 0 ≤ k ≤ 33 → durationOf (secondsOf k) = 2 ^ k * Second)
    ∧ (r = None →
       length (newDrafts (foldl addPosted ∅ rcs) (mem m) (postComments (svc m)))
       = 40%nat →
       tr = [ EvCreateReview
                (reviewOf (svc m)
                   (take 25 (newDrafts (foldl addPosted ∅ rcs) (mem m)
                               (postComments (svc m)))));
              EvSleep (2 * Second);
              EvCreateReview
                (reviewOf (svc m)
                   (drop 25 (newDrafts (foldl addPosted ∅ rcs) (mem m)
                               (postComments (svc m))))) ])
    ∧ ((∀ w o rp n rv, (CreateReview w o rp n rv).2 = None) → r = None).
Proof.
  intros Hlive Hc.
  destruct (Flush_run _ _ _ _ Hlive Hc) as (r & m' & tr & Hrun & Hm & Hs & Hl & Hp & Hn & He).
  set (news := newDrafts (foldl addPosted ∅ rcs) (mem m) (postComments (svc m))) in *.
  assert (mjoin (batchesOf news) = news) as Hjoin.
  { apply batches_join. lia. }
  exists r, m', tr. split_and!; try done.
  - apply prefix_reviews in Hp as [k Hk]. rewrite schedule_reviews in Hk.
    pose proof (batches_bound (S (length news)) news) as Hb.
    fold (batchesOf news) in Hb. rewrite Hk in Hb.
    apply Forall_app in Hb as [Hb _].
    by apply Forall_fmap in Hb.
  - apply prefix_created in Hp. unfold created in Hp at 2.
    by rewrite schedule_reviews, Hjoin in Hp.
  - intros Hr. rewrite (Hn Hr). unfold created.
    rewrite schedule_reviews, schedule_sleeps. split_and!; [done..|].
    rewrite <- (length_map Comments), schedule_reviews.
    apply List.map_ext. intros k. by rewrite Z.add_0_l.
  - apply durationOf_seconds.
  - intros Hr H40. rewrite (Hn Hr), (batches_40 _ H40). done.
  - intros Hacc. unfold Flush in Hrun. run.
    rewrite (setPostedComment_run _ _ _ _ Hc) in Hrun.
    unfold postAsReviewComment in Hrun. run.
    destruct (reviewLoop _ _ _ _) as [x mx| |]; [|done..].
    by eapply post_rec_accept.
Qed.

Lemma post_rec_fails fuel comments cnt m (e : error) (w' : W) :
  comments ≠ [] →
  CreateReview (remote m) (owner (svc m)) (repo (svc m)) (pr (svc m))
    (reviewOf (svc m) (take 25 comments)) = (w', Some e) →
  postGitHubComments_rec (S fuel) comments cnt m
  = Ok (Some e)
      (mkMachine w' (mem m) (svc m)
         (log m ++ [EvCreateReview (reviewOf (svc m) (take 25 comments))])).
Proof.
  intros Hne Hcall. cbn [postGitHubComments_rec].
  destruct (len comments =? 0)%Z eqn:Hz.
  { by apply len_zero in Hz. }
  run. unfold callCreateReview. rewrite take_min.
  fold (reviewOf (svc m) (take 25 comments)). by rewrite Hcall.
Qed.

Lemma filter_none {A} (P : A → Prop) `{!∀ x, Decision (P x)} (l : list A) :
  (∀ x, x ∈ l → ¬ P x) → filter P l = [].
Proof.
  induction l as [|x l IH]; intros Hall; [done|].
  rewrite filter_cons, decide_False by (apply Hall, list_elem_of_here).
  apply IH. intros y Hy. by apply Hall, list_elem_of_further.
Qed.

Lemma withPosted_id m p :
  p = postedcs (svc m) → withPosted p m = m.
Proof. intros ->. by destruct m as [w h [] l]. Qed.

Lemma withPosted_twice m p q : withPosted p (withPosted q m) = withPosted p m.
Proof. done. Qed.

(** A [Flush] that returns nil got its listing. *)
Lemma Flush_nil_listing fuel m m1 :
  Flush fuel m = Ok None m1 → ∃ rcs mc, comment fuel m = Ok (inr rcs) mc.
Proof.
  unfold Flush, setPostedComment, comment. run.
  fold (withPosted ∅ m).
  destruct (listAllPullRequestsComments fuel _ (withPosted ∅ m))
    as [[e|rcs] ma| |] eqn:Hl; [done| |done..].
  intros _. apply (listAll_posted _ (postedcs (svc m))) in Hl.
  rewrite withPosted_twice, withPosted_id in Hl by done. eauto.
Qed.

(** C4, as the code has it: a submission that fails, with the abuse
    rate-limit rejection as with any other error, is surfaced at once and
    never tried again.  In a [Flush] whose listing returns, the reviews
    submitted are a prefix of the slices of the pending drafts (no slice is
    sent twice); an error returned is the answer of the last call in the
    trace, after which nothing happens, no sleep either; if the first
    submission fails, [Flush] returns its error after that one call.  At
    any depth, the call of [postGitHubComments] whose submission fails
    returns that error, having added the one review to the trace. *)
Theorem Flush_surfaces_submission_error fuel m (rcs : list PullRequestComment) m1 :
  live (mem m) (postComments (svc m)) →
  comment fuel m = Ok (inr rcs) m1 →
  ∃ r m' tr,
    Flush fuel m = Ok r m' ∧ log m' = log m1 ++ tr
    ∧ map Comments (reviewsOf tr)
        `prefix_of`
        batchesOf (newDrafts (foldl addPosted ∅ rcs) (mem m) (postComments (svc m)))
    ∧ (∀ e, r = Some e →
         ∃ tr0 rv w0,
           tr = tr0 ++ [EvCreateReview rv]
           ∧ CreateReview w0 (owner (svc m)) (repo (svc m)) (pr (svc m)) rv
             = (remote m', Some e))
    ∧ (∀ e w',
         newDrafts (foldl addPosted ∅ rcs) (mem m) (postComments (svc m)) ≠ [] →
         CreateReview (remote m1) (owner (svc m)) (repo (svc m)) (pr (svc m))
           (reviewOf (svc m)
              (take 25 (newDrafts (foldl addPosted ∅ rcs) (mem m)
                          (postComments (svc m)))))
         = (w', Some e) →
         r = Some e ∧ remote m' = w'
         ∧ tr = [EvCreateReview
                   (reviewOf (svc m)
                      (take 25 (newDrafts (foldl addPosted ∅ rcs) (mem m)
                                  (postComments (svc m)))))])
    ∧ (∀ fuel' comments cnt m0 e w',
         comments ≠ [] →
         CreateReview (remote m0) (owner (svc m0)) (repo (svc m0)) (pr (svc m0))
           (reviewOf (svc m0) (take 25 comments)) = (w', Some e) →
         postGitHubComments_rec (S fuel') comments cnt m0
         = Ok (Some e)
             (mkMachine w' (mem m0) (svc m0)
                (log m0 ++ [EvCreateReview (reviewOf (svc m0) (take 25 comments))]))).
Proof.
  intros Hlive Hc.
  destruct (Flush_run _ _ _ _ Hlive Hc) as (r & m' & tr & Hrun & Hm & Hs & Hl & Hp & Hn & He).
  destruct (comment_frame _ _ _ _ Hc) as (Hm1 & Hs1 & _).
  set (news := newDrafts (foldl addPosted ∅ rcs) (mem m) (postComments (svc m))) in *.
  exists r, m', tr. split_and!; try done.
  - apply prefix_reviews in Hp. by rewrite schedule_reviews in Hp.
  - intros e w' Hne Hcall.
    unfold Flush in Hrun. run.
    rewrite (setPostedComment_run _ _ _ _ Hc) in Hrun.
    unfold postAsReviewComment in Hrun. run.
    rewrite reviewLoop_run in Hrun
      by (cbn [withPosted mem svc setPostedcs postComments]; by rewrite Hm1, Hs1).
    cbn [withPosted mem svc setPostedcs postComments postedcs fst app] in Hrun.
    rewrite Hm1, Hs1 in Hrun. fold news in Hrun.
    unfold postGitHubComments in Hrun.
    rewrite (post_rec_fails _ _ _ _ e w' Hne) in Hrun.
    + injection Hrun as <- <-. cbn [remote log] in *.
      split_and!; [done..|]. apply app_inv_head in Hl. rewrite <- Hl.
      unfold reviewOf. cbn [sha setPostedcs]. by rewrite Hs1.
    + unfold reviewOf, withPosted.
      cbn [remote svc sha owner repo pr setPostedcs]. by rewrite Hs1.
  - intros. by apply post_rec_fails.
Qed.

(** C2: a second [Flush] creates nothing.  Let a first [Flush] of a live
    buffer return nil, with [tr] its trace; let a second one start with the
    same buffer and the same comments, whatever the remote side has become,
    provided its listing returns and shows every comment the first one
    created and every comment the first one found posted.  Then the second
    [Flush] returns nil, its rebuilt index marks every buffered comment as
    posted, nothing is pending, and the trace gains the listing only: no
    review is created. *)
Theorem Flush_twice fuel1 fuel2 m0 m1 tr m1' (rcs2 : list PullRequestComment) mL :
  live (mem m0) (postComments (svc m0)) →
  Flush fuel1 m0 = Ok None m1 →
  log m1 = log m0 ++ tr →
  mem m1' = mem m1 →
  postComments (svc m1') = postComments (svc m1) →
  comment fuel2 m1' = Ok (inr rcs2) mL →
  (∀ d, d ∈ created tr → present rcs2 d) →
  (∀ path pos body,
     (path, pos, body) ∈ postedcs (svc m1) → holds rcs2 path pos body) →
  ∃ m2,
    Flush fuel2 m1' = Ok None m2
    ∧ log m2 = log mL
    ∧ reviewsOf (log m2) = reviewsOf (log m1')
    ∧ sleepsOf (log m2) = sleepsOf (log m1')
    ∧ (∀ c cv, c ∈ postComments (svc m1') → mem m1' !! c = Some cv →
               IsPosted (postedcs (svc m2)) cv (LnumDiff cv) = true)
    ∧ newDrafts (postedcs (svc m2)) (mem m1') (postComments (svc m1')) = [].
Proof.
  intros Hlive H1 Hlog Hmem Hbuf Hc2 Hcreated Hkept.
  (* the first flush *)
  destruct (Flush_nil_listing _ _ _ H1) as (rcs1 & mc & Hc1).
  destruct (Flush_run _ _ _ _ Hlive Hc1)
    as (r & m' & tr' & Hrun & Hm & Hs & Hl & _ & Hn & _).
  rewrite H1 in Hrun. injection Hrun as <- <-.
  specialize (Hn eq_refl).
  destruct (comment_frame _ _ _ _ Hc1) as (_ & _ & trl & Hlc & Hrl & _).
  set (idx1 := foldl addPosted ∅ rcs1) in *.
  set (news1 := newDrafts idx1 (mem m0) (postComments (svc m0))) in *.
  assert (created tr = news1) as Hnews1.
  { rewrite Hl, Hlc, <- app_assoc in Hlog. apply app_inv_head in Hlog.
    rewrite <- Hlog, created_app. unfold created at 1. rewrite Hrl. cbn [map mjoin list_join app].
    rewrite Hn. unfold created. rewrite schedule_reviews.
    apply batches_join. lia. }
  (* the second flush *)
  assert (live (mem m1') (postComments (svc m1'))) as Hlive'.
  { rewrite Hmem, Hbuf, Hm, Hs. done. }
  destruct (Flush_run _ _ _ _ Hlive' Hc2)
    as (r2 & m2 & tr2 & Hrun2 & Hm2 & Hs2 & Hl2 & Hp2 & _ & He2).
  destruct (comment_frame _ _ _ _ Hc2) as (_ & _ & trl2 & Hlc2 & Hrl2 & Hsl2).
  set (idx2 := foldl addPosted ∅ rcs2) in *.
  assert (∀ c cv, c ∈ postComments (svc m1') → mem m1' !! c = Some cv →
                  IsPosted idx2 cv (LnumDiff cv) = true) as Hposted.
  { intros c cv Hin Hcv. unfold IsPosted. rewrite bool_decide_eq_true.
    subst idx2. rewrite index_spec. right.
    destruct (IsPosted idx1 cv (LnumDiff cv)) eqn:Hp1.
    - apply Hkept. rewrite Hs. cbn [setPostedcs postedcs].
      unfold IsPosted in Hp1. by rewrite bool_decide_eq_true in Hp1.
    - destruct (Hcreated (draftOf cv)) as (rc & Hrc & Hpa & Hpo & Hbo); [|by exists rc].
      rewrite Hnews1. unfold news1, newDrafts, pending, derefs.
      apply list_elem_of_fmap_2, list_elem_of_filter. split; [done|].
      apply list_elem_of_omap. exists c. split.
      + by rewrite Hbuf, Hs in Hin.
      + by rewrite Hmem, Hm in Hcv. }
  assert (newDrafts idx2 (mem m1') (postComments (svc m1')) = []) as Hnone.
  { unfold newDrafts, pending. rewrite filter_none; [done|].
    intros cv Hcv. unfold derefs in Hcv.
    apply list_elem_of_omap in Hcv as (c & Hin & Hcv).
    by rewrite (Hposted c cv Hin Hcv). }
  rewrite Hnone in Hp2. cbn in Hp2. apply prefix_nil_inv in Hp2. subst tr2.
  rewrite app_nil_r in Hl2.
  assert (r2 = None) as ->.
  { destruct r2 as [e|]; [|done].
    destruct (He2 e eq_refl) as (tr0 & rv & w0 & Habs & _).
    by destruct tr0. }
  exists m2. rewrite Hs2. cbn [setPostedcs postedcs].
  split_and!; try done.
  - by rewrite Hl2, Hlc2, reviewsOf_app, Hrl2, app_nil_r.
  - by rewrite Hl2, Hlc2, sleepsOf_app, Hsl2, app_nil_r.
Qed.


(** [Post] keeps the buffer live: a service that starts with an empty
    buffer and is fed by [Post] never holds a dead pointer. *)
Lemma Post_live m (c : nat) m' r :
  live (mem m) (postComments (svc m)) →
  Post c m = Ok r m' →
  live (mem m') (postComments (svc m')).
Proof.
  intros Hlive. unfold Post. run.
  destruct (mem m !! c) as [cv|] eqn:Hc; [|done].
  intros [= <- <-]. cbn [mem svc setPostComments postComments].
  unfold live in *. apply Forall_app. split.
  - eapply Forall_impl; [exact Hlive|]. intros c' [v Hv].
    destruct (decide (c = c')) as [->|Hne].
    + rewrite lookup_insert_eq. by eexists.
    + rewrite lookup_insert_ne by done. by eexists.
  - apply Forall_singleton. rewrite lookup_insert_eq. by eexists.
Qed.

End Service.

(** *** The claims at the doubles *)
Import Doubles.

Ltac by_computation := apply (bool_decide_unpack _); vm_compute; exact I.

#[local] Existing Instance fakeHelpers.

Ltac live_by_computation := unfold live; by_computation.

(** C8 at a listing of two comments, one of them without a position: the
    buffered comment they both resemble is posted because of the first. *)
Lemma setPostedComment_index_witness :
  ∃ m2,
    @setPostedComment _ acceptingCli 1 (machine 1 remoteMixed) = Ok None m2
    ∧ @IsPosted fakeHelpers (postedcs (svc m2)) (sampleComment 0) 0 = true
    ∧ @IsPosted fakeHelpers (postedcs (svc m2)) (sampleComment 0) 1 = false.
Proof.
  destruct (@setPostedComment_index _ acceptingCli fakeHelpers 1
              (machine 1 remoteMixed) remoteMixed
              (mkMachine remoteMixed (heapOf 1) (service "" (seq 0 1))
                 [EvListComments (mkListOptions 0 100)])
              eq_refl) as (m2 & Hrun & _ & Hp & _).
  exists m2. split; [exact Hrun|]. split.
  - apply Hp. eexists. split; [apply list_elem_of_here|]. by vm_compute.
  - apply not_true_is_false. intros Hq. apply Hp in Hq as (c & Hc & Hpa & Hpo & Hbo).
    apply elem_of_cons in Hc as [->|Hc]; [by vm_compute in Hpo|].
    apply elem_of_cons in Hc as [->|Hc]; [by vm_compute in Hpo|].
    by apply elem_of_nil in Hc.
Defined.

(** C9 at thirty buffered comments, none posted: all thirty are drafted. *)
Lemma overflow_branch_unreachable_witness :
  ∃ comments,
    @reviewLoop _ fakeHelpers (postComments (svc (machine 30 []))) [] [] (machine 30 [])
    = Ok (comments, []) (machine 30 [])
    ∧ length comments = 30%nat.
Proof.
  destruct (@overflow_branch_unreachable _ fakeHelpers (machine 30 [])
              ltac:(live_by_computation)) as (Hrun & _).
  eexists. split; [exact Hrun|]. by vm_compute.
Defined.

(** C3 at forty buffered comments and a client that accepts every review. *)
Lemma Flush_batches_witness :
  ∃ m' comments,
    @Flush _ acceptingCli fakeHelpers 1 (machine 40 []) = Ok None m'
    ∧ length comments = 40%nat
    ∧ log m'
      = [ EvListComments (mkListOptions 0 100);
          EvCreateReview (reviewOf (svc (machine 40 [])) (take 25 comments));
          EvSleep 2000000000;
          EvCreateReview (reviewOf (svc (machine 40 [])) (drop 25 comments)) ].
Proof.
  destruct (@Flush_batches _ acceptingCli fakeHelpers 1 (machine 40 []) []
              (mkMachine [] (heapOf 40) (service "" (seq 0 40))
                 [EvListComments (mkListOptions 0 100)])
              ltac:(live_by_computation) eq_refl)
    as (r & m' & tr & Hrun & Hl & _ & _ & _ & _ & H40 & Hacc).
  assert (r = None) as -> by (apply Hacc; reflexivity).
  exists m', (newDrafts (foldl addPosted ∅ []) (mem (machine 40 []))
                (postComments (svc (machine 40 [])))).
  split; [exact Hrun|]. split; [by vm_compute|].
  rewrite Hl, (H40 eq_refl) by (by vm_compute). done.
Defined.

(** C4 at a client that rejects every review as abuse: one call, its error
    returned. *)
Lemma Flush_surfaces_submission_error_witness :
  ∃ m' rv,
    @Flush _ rejectingCli fakeHelpers 1 (machine 1 []) = Ok (Some abuse) m'
    ∧ log m' = [EvListComments (mkListOptions 0 100); EvCreateReview rv].
Proof.
  destruct (@Flush_surfaces_submission_error _ rejectingCli fakeHelpers 1
              (machine 1 []) []
              (mkMachine [] (heapOf 1) (service "" (seq 0 1))
                 [EvListComments (mkListOptions 0 100)])
              ltac:(live_by_computation) eq_refl)
    as (r & m' & tr & Hrun & Hl & _ & _ & Hfirst & _).
  destruct (Hfirst abuse []) as (-> & _ & ->).
  - by vm_compute.
  - reflexivity.
  - exists m'. eexists. split; [exact Hrun|]. rewrite Hl. reflexivity.
Defined.

(** The claim C4 fails here: the rejection is an abuse rate-limit error,
    [Flush] returns it to its caller, and the trace shows the listing and
    the one rejected submission: no sleep, no second attempt. *)
Lemma rate_limit_rejection_not_retried :
  ∃ m' rv,
    @Flush _ rejectingCli fakeHelpers 1 (machine 1 []) = Ok (Some abuse) m'
    ∧ abuse = AbuseRateLimitError "You have triggered an abuse detection mechanism"
    ∧ log m' = [EvListComments (mkListOptions 0 100); EvCreateReview rv]
    ∧ length (reviewsOf (log m')) = 1%nat
    ∧ sleepsOf (log m') = [].
Proof.
  eexists. eexists. split; [vm_compute; reflexivity|].
  split; [reflexivity|]. split; [reflexivity|]. split; reflexivity.
Qed.

(** C2 at three comments, one of them posted before: the first flush
    creates the other two, the remote side then shows all three, and the
    second flush creates nothing. *)
Lemma Flush_twice_witness :
  ∃ m2,
    @Flush _ acceptingCli fakeHelpers 1 afterFirstFlush = Ok None m2
    ∧ length (created (log afterFirstFlush)) = 2%nat
    ∧ reviewsOf (log m2) = reviewsOf (log afterFirstFlush).
Proof.
  destruct (@Flush_twice _ acceptingCli fakeHelpers 1 1 (machine 3 remoteMixed)
              afterFirstFlush (log afterFirstFlush) afterFirstFlush
              (remote afterFirstFlush)
              (mkMachine (remote afterFirstFlush) (mem afterFirstFlush)
                 (svc afterFirstFlush)
                 (log afterFirstFlush ++ [EvListComments (mkListOptions 0 100)]))
              ltac:(live_by_computation))
    as (m2 & Hrun & _ & Hrev & _).
  - by vm_compute.
  - reflexivity.
  - reflexivity.
  - reflexivity.
  - reflexivity.
  - apply Forall_forall.
    eapply Forall_impl with (P := λ d, Exists (λ c,
        prPath c = drPath d ∧ prPosition c = drPosition d ∧ prBody c = drBody d)
        (remote afterFirstFlush)).
    + by_computation.
    + intros d Hd. apply Exists_exists in Hd as (c & Hc & Hf). by exists c.
  - intros path pos body Hin.
    replace (postedcs (svc afterFirstFlush))
      with ({[ ("main.go", 0, "**[lint]** body") ]} : gset (string * Z * string))
      in Hin by (by vm_compute).
    apply elem_of_singleton in Hin as [= -> -> ->].
    eexists. split; [apply list_elem_of_here|]. by vm_compute.
  - exists m2. split; [exact Hrun|]. split; [by vm_compute | exact Hrev].
Defined.



End GithubProps.

(** ** More about the comment service *)
Module ExtraProps.
Import Github GithubExtra GithubProps.

Section Service.
Context {W : Type} {cli : Client W} {helpers : Helpers}.
Implicit Types (m : Machine W) (cs : list nat) (h : gmap nat Comment).

(** *** Listing *)

Lemma reviewsOf_listing (tr : list ListOptions) :
  reviewsOf (map EvListComments tr) = [].
Proof. by induction tr. Qed.

Lemma sleepsOf_listing (tr : list ListOptions) :
  sleepsOf (map EvListComments tr) = [].
Proof. by induction tr. Qed.

Lemma Paged_run g w opts pages tr w' :
  Paged g w opts pages tr w' →
  ∀ fuel h l, (length pages ≤ fuel)%nat →
    listAllPullRequestsComments fuel opts (mkMachine w h g l)
    = Ok (inr (mjoin pages)) (mkMachine w' h g (l ++ map EvListComments tr)).
Proof.
  induction 1 as [w opts rcs resp w' Hcall Hlast
                 |w opts rcs resp w1 pages tr w' Hcall Hnext _ IH];
    intros fuel h l Hfuel; (destruct fuel as [|fuel]; [cbn in Hfuel; lia|]);
    cbn [listAllPullRequestsComments]; run; unfold callListComments;
    cbn [remote svc mem log]; rewrite Hcall.
  - rewrite (proj2 (Z.eqb_eq _ _) Hlast). cbn. by rewrite app_nil_r.
  - rewrite (proj2 (Z.eqb_neq _ _) Hnext).
    rewrite IH by (cbn in Hfuel; lia).
    cbn [map mjoin list_join]. by rewrite <- app_assoc.
Qed.

Lemma Paged_shape g w opts pages tr w' :
  Paged g w opts pages tr w' →
  length tr = length pages
  ∧ head tr = Some opts
  ∧ Forall (λ o, PerPage o = PerPage opts) tr.
Proof.
  induction 1 as [|w opts rcs resp w1 pages tr w' _ _ _ (IHl & _ & IHp)].
  - split_and!; [done..|]. by repeat constructor.
  - split_and!; [cbn; by rewrite IHl | done |].
    constructor; [done|]. exact IHp.
Qed.

(** X1: when the remote side answers a listing with the pages [pages],
    naming a next page after each but the last, [comment] returns the
    comments of all the pages, in the order of the pages, provided the
    depth allowed is at least their number.  It asks once per page, first
    for page 0, then for the pages the responses name, always with 100
    comments per page, and it changes neither the service nor the
    comments. *)
Theorem comment_concatenates_pages fuel m
  (pages : list (list PullRequestComment)) (tr : list ListOptions) (w' : W) :
  Paged (svc m) (remote m) (mkListOptions 0 100) pages tr w' →
  (length pages ≤ fuel)%nat →
  comment fuel m
  = Ok (inr (mjoin pages))
      (mkMachine w' (mem m) (svc m) (log m ++ map EvListComments tr))
  ∧ length tr = length pages
  ∧ head tr = Some (mkListOptions 0 100)
  ∧ Forall (λ o, PerPage o = 100) tr.
Proof.
  intros Hp Hfuel. destruct (Paged_shape _ _ _ _ _ _ Hp) as (Hl & Hh & Hpp).
  split_and!; try done.
  unfold comment. destruct m as [w h g l].
  by apply Paged_run.
Qed.

(** X2: what [comment] returns is always made of pages.  If it returns
    the comments [rcs], the remote side answered with some pages, as many
    as the depth allows at most, and [rcs] is those pages put end to end;
    the trace gains the requests and nothing else. *)
Theorem comment_returns_pages fuel m (rcs : list PullRequestComment) m' :
  comment fuel m = Ok (inr rcs) m' →
  ∃ pages tr,
    Paged (svc m) (remote m) (mkListOptions 0 100) pages tr (remote m')
    ∧ rcs = mjoin pages
    ∧ (length pages ≤ fuel)%nat
    ∧ log m' = log m ++ map EvListComments tr
    ∧ mem m' = mem m ∧ svc m' = svc m.
Proof.
  unfold comment. generalize (mkListOptions 0 100) as opts.
  revert m rcs m'.
  induction fuel as [|fuel IH]; intros m rcs m' opts; [done|].
  cbn [listAllPullRequestsComments]. run. unfold callListComments.
  destruct (ListComments _ _ _ _ _) as [w1 [e|[cs resp]]] eqn:Hcall; [done|].
  destruct (NextPage resp =? 0)%Z eqn:Hz.
  - intros [= <- <-]. apply Z.eqb_eq in Hz.
    exists [cs], [opts]. cbn [remote mem svc log]. split_and!; try done.
    + by eapply Paged_last.
    + cbn. by rewrite app_nil_r.
    + cbn. lia.
  - apply Z.eqb_neq in Hz.
    destruct (listAllPullRequestsComments fuel _ _) as [[e|rest] m2| |] eqn:Hrec;
      [done| |done..].
    intros [= <- <-].
    apply IH in Hrec as (pages & tr & Hp & -> & Hlen & Hlog & Hmem & Hsvc).
    cbn [remote mem svc log] in *.
    exists (cs :: pages), (opts :: tr). split_and!; try done.
    + by eapply Paged_next.
    + cbn. lia.
    + rewrite Hlog. cbn [map]. by rewrite <- app_assoc.
Qed.

Lemma PagedFail_run g w opts e tr w' :
  PagedFail g w opts e tr w' →
  ∀ fuel h l, (length tr ≤ fuel)%nat →
    listAllPullRequestsComments fuel opts (mkMachine w h g l)
    = Ok (inl e) (mkMachine w' h g (l ++ map EvListComments tr)).
Proof.
  induction 1 as [w opts e w' Hcall
                 |w opts rcs resp w1 e tr w' Hcall Hnext _ IH];
    intros fuel h l Hfuel; (destruct fuel as [|fuel]; [cbn in Hfuel; lia|]);
    cbn [listAllPullRequestsComments]; run; unfold callListComments;
    cbn [remote svc mem log]; rewrite Hcall.
  - done.
  - rewrite (proj2 (Z.eqb_neq _ _) Hnext).
    rewrite IH by (cbn in Hfuel; lia).
    cbn [map]. by rewrite <- app_assoc.
Qed.

(** X3: an error on any page is the result of the whole listing, and the
    pages fetched before it are dropped.  [Flush] then returns that error
    without submitting anything or sleeping, leaves the buffer as it was
    and the index empty. *)
Theorem listing_error_surfaces fuel m (e : error) (tr : list ListOptions) (w' : W) :
  PagedFail (svc m) (remote m) (mkListOptions 0 100) e tr w' →
  (length tr ≤ fuel)%nat →
  comment fuel m
  = Ok (inl e) (mkMachine w' (mem m) (svc m) (log m ++ map EvListComments tr))
  ∧ ∃ m',
      Flush fuel m = Ok (Some e) m'
      ∧ log m' = log m ++ map EvListComments tr
      ∧ reviewsOf (log m') = reviewsOf (log m)
      ∧ sleepsOf (log m') = sleepsOf (log m)
      ∧ postComments (svc m') = postComments (svc m)
      ∧ postedcs (svc m') = ∅
      ∧ mem m' = mem m.
Proof.
  intros Hp Hfuel.
  assert (comment fuel m
          = Ok (inl e) (mkMachine w' (mem m) (svc m) (log m ++ map EvListComments tr)))
    as Hc.
  { unfold comment. destruct m as [w h g l]. by apply PagedFail_run. }
  split; [exact Hc|].
  eexists. split; [by apply Flush_listing_fails|].
  cbn [withPosted log svc mem setPostedcs postComments postedcs].
  split_and!; try done.
  - by rewrite reviewsOf_app, reviewsOf_listing, app_nil_r.
  - by rewrite sleepsOf_app, sleepsOf_listing, app_nil_r.
Qed.

(** X4: the listing has no bound of its own.  Against a remote side that
    names a next page after every page, it never returns, whatever depth
    is allowed, and neither does [Flush]. *)
Theorem listing_has_no_page_bound :
  (∀ w o r n opts, ∃ w' rcs resp,
      ListComments w o r n opts = (w', inr (rcs, resp)) ∧ NextPage resp ≠ 0) →
  ∀ fuel m,
    (∀ opts, listAllPullRequestsComments fuel opts m = OutOfFuel)
    ∧ comment fuel m = OutOfFuel
    ∧ Flush fuel m = OutOfFuel.
Proof.
  intros Hnext.
  assert (∀ fuel m opts, listAllPullRequestsComments fuel opts m = OutOfFuel)
    as Hlist.
  { induction fuel as [|fuel IH]; intros m opts; [done|].
    cbn [listAllPullRequestsComments]. run. unfold callListComments.
    destruct (Hnext (remote m) (owner (svc m)) (repo (svc m)) (pr (svc m)) opts)
      as (w' & rcs & resp & -> & Hne).
    rewrite (proj2 (Z.eqb_neq _ _) Hne). by rewrite IH. }
  intros fuel m. split_and!; [done|apply Hlist|].
  unfold Flush, setPostedComment, comment. run. by rewrite Hlist.
Qed.

(** *** [Flush], taken apart *)

Lemma reviewLoop_Ok_live cs : ∀ m comments remaining x m',
  reviewLoop cs comments remaining m = Ok x m' → live (mem m) cs.
Proof.
  induction cs as [|c cs IH]; intros m comments remaining x m'; [by constructor|].
  cbn [reviewLoop]. run.
  destruct (mem m !! c) as [cv|] eqn:Hc; [|done].
  intros Hrun. constructor; [by eexists|].
  destruct (IsPosted _ _ _); [by eapply IH|].
  rewrite andb_false_r in Hrun. by eapply IH.
Qed.

Lemma comment_fails_pages fuel : ∀ m (e : error) m' opts,
  listAllPullRequestsComments fuel opts m = Ok (inl e) m' →
  ∃ tr, PagedFail (svc m) (remote m) opts e tr (remote m').
Proof.
  induction fuel as [|fuel IH]; intros m e m' opts; [done|].
  cbn [listAllPullRequestsComments]. run. unfold callListComments.
  destruct (ListComments _ _ _ _ _) as [w1 [e1|[rcs resp]]] eqn:Hcall.
  { intros [= <- <-]. exists [opts]. by apply PagedFail_here. }
  destruct (NextPage resp =? 0)%Z eqn:Hz; [done|]. apply Z.eqb_neq in Hz.
  destruct (listAllPullRequestsComments fuel _ _) as [[e2|rest] m2| |] eqn:Hrec;
    [|done..].
  intros [= <- <-]. apply IH in Hrec as (tr & Hp). cbn [svc remote] in Hp.
  exists (opts :: tr). by eapply PagedFail_later.
Qed.

(** Either the listing failed and [Flush] returns its error, or it
    returned and the buffer is live. *)
Lemma Flush_inv fuel m r m' :
  Flush fuel m = Ok r m' →
  (∃ e mc, comment fuel m = Ok (inl e) mc ∧ r = Some e ∧ m' = withPosted ∅ mc)
  ∨ (∃ rcs mc, comment fuel m = Ok (inr rcs) mc
               ∧ live (mem m) (postComments (svc m))).
Proof.
  unfold Flush, setPostedComment, comment. run. fold (withPosted ∅ m).
  destruct (listAllPullRequestsComments fuel _ (withPosted ∅ m))
    as [[e|rcs] ma| |] eqn:Hl; [| |done..].
  - intros [= <- <-]. left.
    destruct (listAll_frame _ _ _ _ _ Hl) as (_ & Hs & _).
    apply (listAll_posted _ (postedcs (svc m))) in Hl.
    rewrite withPosted_twice, withPosted_id in Hl by done.
    eexists _, _. split; [exact Hl|]. split; [done|].
    rewrite withPosted_twice. symmetry. apply withPosted_id.
    by rewrite Hs.
  - intros Hpost. right.
    destruct (listAll_frame _ _ _ _ _ Hl) as (Hm & Hs & _).
    apply (listAll_posted _ (postedcs (svc m))) in Hl.
    rewrite withPosted_twice, withPosted_id in Hl by done.
    eexists _, _. split; [exact Hl|].
    unfold postAsReviewComment in Hpost. run.
    cbn [svc mem setPostedcs postComments] in Hpost.
    destruct (reviewLoop _ _ _ _) as [x mx| |] eqn:Hloop; [|done..].
    apply reviewLoop_Ok_live in Hloop. cbn [mem] in Hloop.
    by rewrite Hm, Hs in Hloop.
Qed.

(** X5: [Flush] does not drain the buffer.  Whatever it returns, the
    buffered pointers, the comments behind them and the coordinates of the
    service are as before; only the index, the remote side and the trace
    move.  The comments it has posted stay buffered, and it is the index
    of the next [Flush] that keeps them from being posted again. *)
Theorem Flush_keeps_buffer fuel m (r : option error) m' :
  Flush fuel m = Ok r m' →
  postComments (svc m') = postComments (svc m)
  ∧ mem m' = mem m
  ∧ owner (svc m') = owner (svc m) ∧ repo (svc m') = repo (svc m)
  ∧ pr (svc m') = pr (svc m) ∧ sha (svc m') = sha (svc m)
  ∧ wd (svc m') = wd (svc m)
  ∧ log m `prefix_of` log m'.
Proof.
  intros Hrun.
  destruct (Flush_inv _ _ _ _ Hrun)
    as [(e & mc & Hc & -> & ->)|(rcs & mc & Hc & Hlive)].
  - destruct (comment_frame _ _ _ _ Hc) as (Hm & Hs & trl & Hl & _).
    cbn [withPosted svc mem log setPostedcs postComments owner repo pr sha wd].
    rewrite Hm, Hs. split_and!; try done. rewrite Hl. by eexists.
  - destruct (comment_frame _ _ _ _ Hc) as (_ & _ & trl & Hl & _).
    destruct (Flush_run _ _ _ _ Hlive Hc)
      as (r' & m'' & tr & Hrun' & Hm & Hs & Hlog & _).
    rewrite Hrun in Hrun'. injection Hrun' as <- <-.
    rewrite Hs, Hm. cbn [setPostedcs postComments owner repo pr sha wd].
    split_and!; try done. rewrite Hlog, Hl, <- app_assoc. by eexists.
Qed.

(** *** Counting the submissions and the sleeps *)

Lemma batches_length fuel : ∀ (comments : list DraftReviewComment),
  (length comments < fuel)%nat →
  length (batches fuel comments) = ((length comments + 24) / 25)%nat.
Proof.
  induction fuel as [|fuel IH]; intros comments Hlen; [lia|].
  rewrite batches_step.
  destruct (len comments =? 0)%Z eqn:Hz.
  { apply len_zero in Hz. by subst. }
  assert (comments ≠ []) as Hne.
  { intros ->. by rewrite (proj2 (len_zero [])) in Hz. }
  assert (0 < length comments)%nat by (destruct comments; [done|cbn; lia]).
  destruct (len comments >? maxCommentsPerRequest)%Z eqn:Hgt.
  - apply len_gt in Hgt. cbn [length].
    rewrite IH by (rewrite length_drop; lia).
    rewrite length_drop.
    replace (length comments + 24)%nat
      with ((length comments - 25 + 24) + 1 * 25)%nat by lia.
    rewrite Nat.div_add by lia. lia.
  - assert (¬ (25 < length comments)%nat) by (rewrite <- len_gt; congruence).
    cbn [length]. apply Nat.div_unique with (r := (length comments - 1)%nat); lia.
Qed.

Lemma schedule_length_sleeps g bs cnt :
  length (sleepsOf (schedule g bs cnt)) = (length bs - 1)%nat.
Proof. by rewrite schedule_sleeps, length_map, length_seq. Qed.

Lemma sum_backoff (j : nat) :
  (j ≤ 33)%nat →
  foldr Z.add 0 (map (λ k : nat, durationOf (secondsOf (Z.of_nat k))) (seq 1 j))
  = (2 ^ (Z.of_nat j + 1) - 2) * Second.
Proof.
  induction j as [|j IH]; intros Hj; [done|].
  rewrite seq_S, map_app, foldr_app. cbn [map foldr].
  rewrite durationOf_seconds by lia.
  assert (∀ (l : list Z) a, foldr Z.add a l = foldr Z.add 0 l + a) as Hsum.
  { induction l as [|x l IHl]; intros a; cbn; [lia|]. rewrite IHl. lia. }
  rewrite Hsum, IH by lia.
  replace (Z.of_nat (S j) + 1) with (Z.succ (Z.of_nat (1 + j))) by lia.
  rewrite Z.pow_succ_r by lia.
  replace (Z.of_nat j + 1) with (Z.of_nat (1 + j)) by lia. lia.
Qed.

(** X6: a [Flush] that returns nil has submitted the [n] pending drafts in
    (n + 24) / 25 reviews, the least number of reviews of at most 25, and
    has slept once between two reviews: with nothing pending it calls
    nothing, and with up to 25 pending drafts it makes one call and never
    sleeps. *)
Theorem Flush_counts fuel m (rcs : list PullRequestComment) m1 m' tr :
  live (mem m) (postComments (svc m)) →
  comment fuel m = Ok (inr rcs) m1 →
  Flush fuel m = Ok None m' →
  log m' = log m1 ++ tr →
  length (reviewsOf tr)
  = ((length (newDrafts (foldl addPosted ∅ rcs) (mem m) (postComments (svc m))) + 24) / 25)%nat
  ∧ length (sleepsOf tr) = (length (reviewsOf tr) - 1)%nat
  ∧ (newDrafts (foldl addPosted ∅ rcs) (mem m) (postComments (svc m)) = [] → tr = [])
  ∧ ((length (newDrafts (foldl addPosted ∅ rcs) (mem m) (postComments (svc m))) ≤ 25)%nat →
     sleepsOf tr = []).
Proof.
  intros Hlive Hc Hrun Hlog.
  destruct (Flush_run _ _ _ _ Hlive Hc)
    as (r & m'' & tr' & Hrun' & _ & _ & Hl & _ & Hn & _).
  rewrite Hrun in Hrun'. injection Hrun' as <- <-.
  rewrite Hl in Hlog. apply app_inv_head in Hlog. subst tr'.
  specialize (Hn eq_refl).
  set (news := newDrafts (foldl addPosted ∅ rcs) (mem m) (postComments (svc m))) in *.
  assert (length (reviewsOf tr) = ((length news + 24) / 25)%nat) as Hcount.
  { rewrite <- (length_map Comments), Hn, schedule_reviews.
    apply batches_length. lia. }
  assert (length (sleepsOf tr) = (length (reviewsOf tr) - 1)%nat) as Hsleeps.
  { rewrite Hn at 1. rewrite schedule_length_sleeps.
    rewrite <- (schedule_reviews (svc m) (batchesOf news) 0), <- Hn.
    by rewrite length_map. }
  split_and!; try done.
  - intros Hnil. rewrite Hn, Hnil. done.
  - intros Hsmall. apply nil_length_inv. rewrite Hsleeps, Hcount.
    destruct (decide (length news = 0%nat)) as [->|Hpos]; [done|].
    replace ((length news + 24) / 25)%nat with 1%nat; [done|].
    apply Nat.div_unique with (r := (length news - 1)%nat); lia.
Qed.

(** X7: the backoff adds up.  A [Flush] that returns nil after [b]
    reviews, [b] between 1 and 34, has slept 2 + 4 + ... + 2^(b-1)
    seconds, that is 2^b - 2 seconds, in all. *)
Theorem Flush_total_backoff fuel m (rcs : list PullRequestComment) m1 m' tr :
  live (mem m) (postComments (svc m)) →
  comment fuel m = Ok (inr rcs) m1 →
  Flush fuel m = Ok None m' →
  log m' = log m1 ++ tr →
  (1 ≤ length (reviewsOf tr) ≤ 34)%nat →
  totalSleep tr = (2 ^ Z.of_nat (length (reviewsOf tr)) - 2) * Second.
Proof.
  intros Hlive Hc Hrun Hlog Hb.
  destruct (Flush_run _ _ _ _ Hlive Hc)
    as (r & m'' & tr' & Hrun' & _ & _ & Hl & _ & Hn & _).
  rewrite Hrun in Hrun'. injection Hrun' as <- <-.
  rewrite Hl in Hlog. apply app_inv_head in Hlog. subst tr'.
  specialize (Hn eq_refl).
  set (news := newDrafts (foldl addPosted ∅ rcs) (mem m) (postComments (svc m))) in *.
  assert (length (reviewsOf tr) = length (batchesOf news)) as Hlen.
  { by rewrite <- (length_map Comments), Hn, schedule_reviews. }
  unfold totalSleep. rewrite Hn at 1. rewrite schedule_sleeps, <- Hlen.
  erewrite List.map_ext; [|intros k; by rewrite Z.add_0_l].
  rewrite sum_backoff by lia. f_equal. f_equal. f_equal. lia.
Qed.

Lemma post_rec_last fuel (comments : list DraftReviewComment) cnt m (w' : W) :
  comments ≠ [] →
  (length comments ≤ 25)%nat →
  CreateReview (remote m) (owner (svc m)) (repo (svc m)) (pr (svc m))
    (reviewOf (svc m) comments) = (w', None) →
  postGitHubComments_rec (S fuel) comments cnt m
  = Ok None
      (mkMachine w' (mem m) (svc m)
         (log m ++ [EvCreateReview (reviewOf (svc m) comments)])).
Proof.
  intros Hne Hlen Hcall. cbn [postGitHubComments_rec].
  destruct (len comments =? 0)%Z eqn:Hz.
  { by apply len_zero in Hz. }
  run. unfold callCreateReview. rewrite take_min, take_ge by lia.
  fold (reviewOf (svc m) comments). rewrite Hcall.
  destruct (len comments >? maxCommentsPerRequest)%Z eqn:Hgt; [|done].
  apply len_gt in Hgt. lia.
Qed.

(** *** What [Flush] submits, and what it returns *)

Lemma present_draftOf (rcs : list PullRequestComment) (cv : Comment) :
  present rcs (draftOf cv) ↔ holds rcs (Path cv) (LnumDiff cv) (CommentBody cv).
Proof. done. Qed.

(** X8: [Flush] submits no comment that the listing showed, and invents
    none.  Every draft of every review of a [Flush] is the draft of a
    buffered comment, and no listed comment has its path, position and
    body. *)
Theorem Flush_submits_only_new fuel m (rcs : list PullRequestComment) m1
  (r : option error) m' tr :
  live (mem m) (postComments (svc m)) →
  comment fuel m = Ok (inr rcs) m1 →
  Flush fuel m = Ok r m' →
  log m' = log m1 ++ tr →
  ∀ d, d ∈ created tr →
    ¬ present rcs d
    ∧ ∃ c cv, c ∈ postComments (svc m) ∧ mem m !! c = Some cv ∧ d = draftOf cv.
Proof.
  intros Hlive Hc Hrun Hlog d Hd.
  destruct (Flush_run _ _ _ _ Hlive Hc)
    as (r' & m'' & tr' & Hrun' & _ & _ & Hl & Hp & _).
  rewrite Hrun in Hrun'. injection Hrun' as <- <-.
  rewrite Hl in Hlog. apply app_inv_head in Hlog. subst tr'.
  apply prefix_created in Hp as [k Hk]. unfold created in Hk at 1.
  rewrite schedule_reviews in Hk. unfold batchesOf in Hk.
  rewrite batches_join in Hk by lia.
  assert (d ∈ newDrafts (foldl addPosted ∅ rcs) (mem m) (postComments (svc m)))
    as Hin by (rewrite Hk; apply elem_of_app; by left).
  unfold newDrafts, pending, derefs in Hin.
  apply list_elem_of_fmap in Hin as (cv & -> & Hcv).
  apply list_elem_of_filter in Hcv as (Hnot & Hcv).
  apply list_elem_of_omap in Hcv as (c & Hc' & Hcv). split.
  - rewrite present_draftOf. intros Hh.
    unfold IsPosted in Hnot. rewrite bool_decide_eq_false in Hnot.
    apply Hnot, index_spec. by right.
  - by exists c, cv.
Qed.

(** X9: [Flush] makes up no error.  An error it returns is the answer of
    the client, unchanged: to a request of the listing, or to the last
    submission of the trace. *)
Theorem Flush_error_is_the_clients fuel m (e : error) m' :
  Flush fuel m = Ok (Some e) m' →
  (∃ tr, PagedFail (svc m) (remote m) (mkListOptions 0 100) e tr (remote m'))
  ∨ (∃ w rv, CreateReview w (owner (svc m)) (repo (svc m)) (pr (svc m)) rv
             = (remote m', Some e)
             ∧ last (reviewsOf (log m')) = Some rv).
Proof.
  intros Hrun.
  destruct (Flush_inv _ _ _ _ Hrun)
    as [(e' & mc & Hc & [= <-] & ->)|(rcs & mc & Hc & Hlive)].
  - left. exact (comment_fails_pages _ _ _ _ _ Hc).
  - right.
    destruct (Flush_run _ _ _ _ Hlive Hc)
      as (r' & m'' & tr & Hrun' & _ & _ & Hl & _ & _ & He).
    rewrite Hrun in Hrun'. injection Hrun' as <- <-.
    destruct (He e eq_refl) as (tr0 & rv & w0 & -> & Hcall).
    exists w0, rv. split; [exact Hcall|].
    rewrite Hl, !reviewsOf_app. cbn. by rewrite !app_assoc, last_snoc.
Qed.

(** *** Posting *)


(** X11: from construction to submission.  In a service fresh from
    [NewGitHubPullRequest], one live comment is posted and the buffer
    flushed.  If the listing shows no comment with the rewritten path, the
    diff position and the comment body, [Flush] makes one submission, of
    the one draft with exactly those three fields, and returns what the
    client answers to it; if the listing shows such a comment, [Flush]
    submits nothing and returns nil. *)
Theorem New_Post_Flush fuel (workDir o rp s : string) (n : Z)
  (g : GitHubPullRequest) m (c : nat) (cv : Comment)
  (rcs : list PullRequestComment) mc :
  NewGitHubPullRequest (inr workDir) o rp n s = inr g →
  svc m = g →
  mem m !! c = Some cv →
  comment fuel
    (mkMachine (remote m) (<[c := posted g cv]> (mem m))
       (setPostComments g [c]) (log m))
  = Ok (inr rcs) mc →
  ∃ m1 r m',
    Post c m = Ok None m1
    ∧ Flush fuel m1 = Ok r m'
    ∧ Path (posted g cv) = filepath_ToSlash (filepath_Join workDir (Path cv))
    ∧ (¬ holds rcs (Path (posted g cv)) (LnumDiff cv) (CommentBody (posted g cv)) →
       log m'
       = log mc
         ++ [EvCreateReview
               (mkReview (Some s) (Some "COMMENT")
                  [mkDraft (Some (Path (posted g cv))) (Some (LnumDiff cv))
                     (Some (CommentBody (posted g cv)))])]
       ∧ (CreateReview (remote mc) o rp n
            (mkReview (Some s) (Some "COMMENT")
               [mkDraft (Some (Path (posted g cv))) (Some (LnumDiff cv))
                  (Some (CommentBody (posted g cv)))])).2 = r)
    ∧ (holds rcs (Path (posted g cv)) (LnumDiff cv) (CommentBody (posted g cv)) →
       log m' = log mc ∧ r = None).
Proof.
  intros [= <-] Hg Hc Hlist.
  set (g := mkService o rp n s [] ∅ workDir) in *.
  set (m1 := mkMachine (remote m) (<[c := posted g cv]> (mem m))
               (setPostComments g [c]) (log m)) in *.
  assert (Post c m = Ok None m1) as Hpost.
  { unfold Post. run. rewrite Hc, Hg. done. }
  assert (live (mem m1) (postComments (svc m1))) as Hlive.
  { subst m1. cbn. apply Forall_singleton. rewrite lookup_insert_eq. by eexists. }
  destruct (comment_frame _ _ _ _ Hlist) as (Hmc & Hsc & _).
  assert (newDrafts (foldl addPosted ∅ rcs) (mem m1) (postComments (svc m1))
          = if IsPosted (foldl addPosted ∅ rcs) (posted g cv) (LnumDiff cv)
            then [] else [draftOf (posted g cv)]) as Hnews.
  { subst m1. cbn [mem svc setPostComments postComments].
    unfold newDrafts, pending. rewrite (derefs_cons_live _ _ (posted g cv)) by apply lookup_insert_eq.
    change (derefs (<[c:=posted g cv]> (mem m)) []) with (@nil Comment).
    rewrite filter_cons, filter_nil.
    change (LnumDiff (posted g cv)) with (LnumDiff cv).
    destruct (IsPosted _ _ _) eqn:Hp.
    - by rewrite decide_False by done.
    - by rewrite decide_True by done. }
  assert (IsPosted (foldl addPosted ∅ rcs) (posted g cv) (LnumDiff cv) = true
          ↔ holds rcs (Path (posted g cv)) (LnumDiff cv) (CommentBody (posted g cv)))
    as Hiff.
  { unfold IsPosted. rewrite bool_decide_eq_true, index_spec. split; [|by right].
    intros [Hin|?]; [|done]. by apply not_elem_of_empty in Hin. }
  exists m1.
  enough (∃ r m',
            Flush fuel m1 = Ok r m'
            ∧ (¬ holds rcs (Path (posted g cv)) (LnumDiff cv) (CommentBody (posted g cv)) →
               log m'
               = log mc
                 ++ [EvCreateReview
                       (mkReview (Some s) (Some "COMMENT") [draftOf (posted g cv)])]
               ∧ (CreateReview (remote mc) o rp n
                    (mkReview (Some s) (Some "COMMENT") [draftOf (posted g cv)])).2 = r)
            ∧ (holds rcs (Path (posted g cv)) (LnumDiff cv) (CommentBody (posted g cv)) →
               log m' = log mc ∧ r = None))
    as (r & m' & HF & H1 & H2) by (exists r, m'; split_and!; done).
  unfold Flush. run. rewrite (setPostedComment_run _ _ _ _ Hlist).
  unfold postAsReviewComment. run.
  rewrite reviewLoop_run
    by (cbn [withPosted mem svc setPostedcs postComments]; by rewrite Hmc, Hsc).
  cbn [withPosted mem svc setPostedcs postComments postedcs fst app].
  rewrite Hmc, Hsc, Hnews.
  destruct (IsPosted _ _ _) eqn:Hp.
  - eexists _, _. split; [reflexivity|]. split.
    + intros Hnot. exfalso. by apply Hnot, Hiff.
    + done.
  - set (mX := withPosted (foldl addPosted ∅ rcs) mc).
    assert (svc mX = setPostedcs (setPostComments g [c]) (foldl addPosted ∅ rcs))
      as HsX by (subst mX; cbn [withPosted svc]; by rewrite Hsc).
    assert (reviewOf (svc mX) [draftOf (posted g cv)]
            = mkReview (Some s) (Some "COMMENT") [draftOf (posted g cv)])
      as Hrev by (by rewrite HsX).
    unfold postGitHubComments. cbn [length].
    destruct (CreateReview (remote mX) (owner (svc mX)) (repo (svc mX)) (pr (svc mX))
                (reviewOf (svc mX) [draftOf (posted g cv)])) as [w' err] eqn:Hcall.
    assert ((CreateReview (remote mc) o rp n
               (mkReview (Some s) (Some "COMMENT") [draftOf (posted g cv)])).2 = err)
      as Hans.
    { rewrite <- Hrev. rewrite HsX in Hcall |- *.
      cbn [setPostedcs setPostComments owner repo pr sha] in Hcall |- *.
      subst g. cbn [owner repo pr sha] in Hcall |- *. subst mX.
      cbn [withPosted remote] in Hcall. by rewrite Hcall. }
    destruct err as [e|].
    + rewrite (post_rec_fails _ [draftOf (posted g cv)] 0 mX e w') by done.
      change (take 25 [draftOf (posted g cv)]) with [draftOf (posted g cv)].
      eexists _, _. split; [reflexivity|]. cbn [log]. rewrite Hrev. split.
      * intros _. done.
      * intros Hh. by apply Hiff in Hh.
    + rewrite (post_rec_last _ [draftOf (posted g cv)] 0 mX w')
        by (try done; cbn; lia).
      eexists _, _. split; [reflexivity|]. cbn [log]. rewrite Hrev. split.
      * intros _. done.
      * intros Hh. by apply Hiff in Hh.
Qed.

(** *** The summary of the remaining comments *)

(** [perTool[c.ToolName] = append(perTool[c.ToolName], c)] *)
Lemma groupOf_addPerTool perTool (c : Comment) tool :
  groupOf (addPerTool perTool c) tool
  = if decide (tool = ToolName c)
    then Some (default [] (groupOf perTool tool) ++ [c])
    else groupOf perTool tool.
Proof.
  induction perTool as [|[t l] rest IH]; cbn [addPerTool groupOf].
  - destruct (String.eqb_spec (ToolName c) tool) as [->|Hne].
    + by rewrite decide_True.
    + by rewrite decide_False.
  - destruct (String.eqb_spec t (ToolName c)) as [->|Hne]; cbn [groupOf].
    + destruct (String.eqb_spec (ToolName c) tool) as [<-|Hne'].
      * by rewrite decide_True.
      * by rewrite decide_False.
    + destruct (String.eqb_spec t tool) as [->|Hne'].
      * by rewrite decide_False.
      * exact IH.
Qed.

Lemma keys_in_addPerTool perTool (c : Comment) t :
  t ∈ map fst (addPerTool perTool c) → t = ToolName c ∨ t ∈ map fst perTool.
Proof.
  induction perTool as [|[t' l] rest IH]; cbn [addPerTool map fst].
  - intros Ht. apply list_elem_of_singleton in Ht. by left.
  - destruct (String.eqb_spec t' (ToolName c)) as [->|Hne]; cbn [map fst].
    + intros Ht. by right.
    + intros Ht. apply elem_of_cons in Ht as [->|Ht].
      * right. apply list_elem_of_here.
      * destruct (IH Ht) as [->|Hin]; [by left|].
        right. by apply list_elem_of_further.
Qed.

Lemma keys_addPerTool perTool (c : Comment) :
  NoDup (map fst perTool) → NoDup (map fst (addPerTool perTool c)).
Proof.
  induction perTool as [|[t l] rest IH]; cbn [addPerTool map fst]; intros Hnd.
  - apply NoDup_singleton.
  - apply NoDup_cons in Hnd as [Hnot Hnd].
    destruct (String.eqb_spec t (ToolName c)) as [->|Hne]; cbn [map fst].
    + by apply NoDup_cons.
    + apply NoDup_cons. split; [|by apply IH].
      intros Hin. by destruct (keys_in_addPerTool _ _ _ Hin).
Qed.

Lemma members_addPerTool perTool (c : Comment) :
  mjoin (map snd (addPerTool perTool c)) ≡ₚ c :: mjoin (map snd perTool).
Proof.
  induction perTool as [|[t l] rest IH]; cbn [addPerTool map snd]; [done|].
  destruct (String.eqb_spec t (ToolName c)) as [->|Hne];
    cbn [map snd mjoin list_join].
  - rewrite <- app_assoc. cbn [app]. by rewrite <- Permutation_middle.
  - rewrite IH. by rewrite <- Permutation_middle.
Qed.

Lemma perTool_spec (added : list Comment) : ∀ perTool (before : list Comment),
  NoDup (map fst perTool) →
  (∀ tool, groupOf perTool tool
           = nonempty (filter (λ c, ToolName c = tool) before)) →
  mjoin (map snd perTool) ≡ₚ before →
  NoDup (map fst (foldl addPerTool perTool added))
  ∧ (∀ tool, groupOf (foldl addPerTool perTool added) tool
             = nonempty (filter (λ c, ToolName c = tool) (before ++ added)))
  ∧ mjoin (map snd (foldl addPerTool perTool added)) ≡ₚ before ++ added.
Proof.
  induction added as [|c added IH]; intros perTool before Hnd Hgroups Hall.
  - cbn [foldl]. rewrite app_nil_r. by split_and!.
  - cbn [foldl].
    replace (before ++ c :: added) with ((before ++ [c]) ++ added)
      by (by rewrite <- app_assoc).
    apply IH.
    + by apply keys_addPerTool.
    + intros tool. rewrite groupOf_addPerTool, Hgroups, filter_app.
      rewrite filter_cons, filter_nil. unfold nonempty.
      destruct (decide (tool = ToolName c)) as [->|Hne].
      * rewrite (decide_True (P := ToolName c = ToolName c)) by done.
        destruct (decide (filter _ before = [])) as [->|Hne']; cbn.
        -- done.
        -- rewrite decide_False; [done|]. by destruct (filter _ before).
      * rewrite (decide_False (P := ToolName c = tool)) by done.
        by rewrite app_nil_r.
    + rewrite members_addPerTool, Hall. by rewrite <- Permutation_cons_append.
Qed.

Lemma loadAll_run cs : ∀ m,
  live (mem m) cs → loadAll cs m = Ok (derefs (mem m) cs) m.
Proof.
  induction cs as [|c cs IH]; intros m Hlive; [done|].
  apply Forall_cons in Hlive as [[cv Hc] Hlive].
  cbn [loadAll]. run. rewrite Hc, (IH _ Hlive).
  by rewrite (derefs_cons_live _ _ _ _ Hc).
Qed.

(** X12: the summary sorts the remaining comments by tool.  For live
    pointers, [remainingCommentsSummary] writes one block per group; the
    groups have pairwise distinct tools; the group of a tool is made of the
    comments of that tool, all of them and in their order, and exists only
    if there is one; together the groups hold every comment once.  The
    machine is left as it was. *)
Theorem remainingCommentsSummary_groups (remaining : list nat) m :
  live (mem m) remaining →
  ∃ groups,
    remainingCommentsSummary remaining m
    = Ok (String.concat "" (map (summaryOfTool (svc m)) groups)) m
    ∧ NoDup (map fst groups)
    ∧ (∀ tool, groupOf groups tool
               = nonempty (filter (λ c, ToolName c = tool)
                             (derefs (mem m) remaining)))
    ∧ mjoin (map snd groups) ≡ₚ derefs (mem m) remaining.
Proof.
  intros Hlive.
  exists (foldl addPerTool [] (derefs (mem m) remaining)).
  destruct (perTool_spec (derefs (mem m) remaining) [] [])
    as (Hnd & Hgroups & Hall); [constructor|done|done|].
  split_and!; try done.
  unfold remainingCommentsSummary. run. by rewrite loadAll_run.
Qed.

(** *** Slices *)


(** *** The index over pages *)

(** X14: the index forgets order and repetition.  Listings with the same
    comments, in whatever order, give the same index; listing a comment
    twice changes nothing; and the index of pages put end to end is the
    union of the indexes of the pages. *)
Theorem index_is_a_set (rcs1 rcs2 : list PullRequestComment) :
  foldl addPosted ∅ (rcs1 ++ rcs2)
  = foldl addPosted ∅ rcs1 ∪ foldl addPosted ∅ rcs2
  ∧ (rcs1 ≡ₚ rcs2 → foldl addPosted ∅ rcs1 = foldl addPosted ∅ rcs2)
  ∧ foldl addPosted ∅ (rcs1 ++ rcs1) = foldl addPosted ∅ rcs1
  ∧ (∀ pages : list (list PullRequestComment),
       ∀ path pos body,
         (path, pos, body) ∈ foldl addPosted ∅ (mjoin pages)
         ↔ ∃ page, page ∈ pages ∧ (path, pos, body) ∈ foldl addPosted ∅ page).
Proof.
  assert (∀ a b, foldl addPosted ∅ (a ++ b)
                 = foldl addPosted ∅ a ∪ foldl addPosted ∅ b) as Happ.
  { intros a b. apply set_eq. intros [[path pos] body].
    rewrite elem_of_union, !index_spec. unfold holds. split.
    - intros [Hin|(c & Hc & Hf)]; [by apply not_elem_of_empty in Hin|].
      apply elem_of_app in Hc as [Hc|Hc]; [left|right]; right; by exists c.
    - intros [[Hin|(c & Hc & Hf)]|[Hin|(c & Hc & Hf)]];
        try (by apply not_elem_of_empty in Hin);
        right; exists c; (split; [|done]); apply elem_of_app; [by left|by right]. }
  split_and!.
  - apply Happ.
  - intros Hperm. apply set_eq. intros [[path pos] body].
    rewrite !index_spec. unfold holds.
    split; (intros [Hin|(c & Hc & Hf)]; [by left|]; right; exists c;
            split; [|done]); [by rewrite <- Hperm | by rewrite Hperm].
  - rewrite Happ. by rewrite union_idemp_L.
  - intros pages path pos body. induction pages as [|page pages IH].
    + cbn. split; [intros Hin; by apply not_elem_of_empty in Hin|].
      intros (page & Hp & _). by apply elem_of_nil in Hp.
    + cbn [mjoin list_join]. rewrite Happ, elem_of_union, IH. split.
      * intros [Hin|(page' & Hp & Hin)].
        -- exists page. split; [apply list_elem_of_here | done].
        -- exists page'. split; [by apply list_elem_of_further | done].
      * intros (page' & Hp & Hin).
        apply elem_of_cons in Hp as [->|Hp]; [by left|].
        right. by exists page'.
Qed.

End Service.

(** *** The filter keeps every finding *)

Import Difffilter.

Lemma indexLines_positive ls : ∀ pos lnew (idx : gmap Z Entry),
  0 ≤ pos →
  (∀ k e, idx !! k = Some e → 1 ≤ Difffilter.LnumDiff e) →
  pos ≤ (indexLines ls pos lnew idx).1
  ∧ ∀ k e, (indexLines ls pos lnew idx).2 !! k = Some e → 1 ≤ Difffilter.LnumDiff e.
Proof.
  induction ls as [|l ls IH]; intros pos lnew idx Hpos Hidx; [by split|].
  cbn [indexLines].
  assert (∀ k e, <[lnew := mkEntry (pos + 1) (Type_ l)]> idx !! k = Some e →
                 1 ≤ Difffilter.LnumDiff e) as Hins.
  { intros k e. destruct (decide (lnew = k)) as [->|Hne].
    - rewrite lookup_insert_eq. intros [= <-]. cbn. lia.
    - rewrite lookup_insert_ne by done. apply Hidx. }
  destruct (Type_ l) eqn:Ht.
  - destruct (IH (pos + 1) (lnew + 1) _ ltac:(lia) Hins) as [Hle Hall].
    split; [lia | exact Hall].
  - destruct (IH (pos + 1) (lnew + 1) _ ltac:(lia) Hins) as [Hle Hall].
    split; [lia | exact Hall].
  - destruct (IH (pos + 1) lnew idx ltac:(lia) Hidx) as [Hle Hall].
    split; [lia | exact Hall].
Qed.

Lemma indexHunks_positive hs : ∀ pos (idx : gmap Z Entry),
  0 ≤ pos →
  (∀ k e, idx !! k = Some e → 1 ≤ Difffilter.LnumDiff e) →
  ∀ k e, indexHunks hs pos idx !! k = Some e → 1 ≤ Difffilter.LnumDiff e.
Proof.
  induction hs as [|hk hs IH]; intros pos idx Hpos Hidx; [done|].
  cbn [indexHunks].
  destruct (indexLines_positive (Lines hk) pos (StartLineNew hk) idx Hpos Hidx)
    as [Hle Hall].
  destruct (indexLines _ _ _ _) as [pos' idx']. cbn [fst snd] in *.
  apply IH; [lia | exact Hall].
Qed.

Lemma BuildIndex_positive fds path lnum e :
  lookupLine (BuildIndex fds) path lnum = Some e → 1 ≤ Difffilter.LnumDiff e.
Proof.
  unfold lookupLine. induction fds as [|fd fds IH]; cbn [BuildIndex].
  - by rewrite lookup_empty.
  - destruct (decide (PathNew fd = path)) as [->|Hne].
    + rewrite lookup_insert_eq. apply indexHunks_positive; [lia|].
      intros k e'. by rewrite lookup_empty.
    + by rewrite lookup_insert_ne.
Qed.

(** X15: the filter annotates, it does not drop.  [FilterCheck] returns one
    entry per finding, in the order of the findings and around the finding
    itself, as the expectations of [filter_test.go] have it; an entry that
    is not in the diff has position 0, and an entry that is in the diff
    under [added] or [diff_context] has a position of at least 1. *)
Theorem FilterCheck_keeps_every_finding (results : list Reviewdog.CheckResult)
  (diff : list FileDiff) (strip : nat) (wd : string) (mode : Mode) :
  map Reviewdog.CheckResult_ (Reviewdog.FilterCheck results diff strip wd mode)
  = results
  ∧ length (Reviewdog.FilterCheck results diff strip wd mode) = length results
  ∧ (∀ c, c ∈ Reviewdog.FilterCheck results diff strip wd mode →
          Reviewdog.InDiff c = false → Reviewdog.LnumDiff c = 0)
  ∧ (∀ c, c ∈ Reviewdog.FilterCheck results diff strip wd mode →
          mode = ModeAdded ∨ mode = ModeDiffContext →
          Reviewdog.InDiff c = true → 1 ≤ Reviewdog.LnumDiff c).
Proof.
  unfold Reviewdog.FilterCheck. split_and!.
  - rewrite List.map_map. rewrite <- (List.map_id results) at 2.
    apply List.map_ext. intros r. apply FilterProps.filterOne_finding.
  - apply length_map.
  - intros c Hc. apply list_elem_of_fmap in Hc as (r & -> & _).
    unfold Reviewdog.filterOne, Difffilter.InDiff.
    destruct mode; cbn.
    + destruct (lookupLine _ _ _) as [e|]; [|done].
      by destruct (isAdded (Kind e)).
    + by destruct (lookupLine _ _ _).
    + by destruct (BuildIndex diff !! _).
    + done.
  - intros c Hc Hmode. apply list_elem_of_fmap in Hc as (r & -> & _).
    unfold Reviewdog.filterOne, Difffilter.InDiff.
    destruct Hmode as [-> | ->]; cbn.
    + destruct (lookupLine _ _ _) as [e|] eqn:He; [|done].
      destruct (isAdded (Kind e)); [|done]. cbn. intros _.
      by eapply BuildIndex_positive.
    + destruct (lookupLine _ _ _) as [e|] eqn:He; [|done]. cbn. intros _.
      by eapply BuildIndex_positive.
Qed.

(** *** The properties at the doubles *)
Import Doubles Doubles2.

#[local] Existing Instance fakeHelpers.

Lemma threePages_paged :
  @Paged _ pagedCli (svc (pagedMachine 0)) threePages (mkListOptions 0 100)
    threePages [mkListOptions 0 100; mkListOptions 2 100; mkListOptions 3 100]
    threePages.
Proof.
  eapply Paged_next; [reflexivity | done |].
  eapply Paged_next; [reflexivity | done |].
  eapply Paged_last; [reflexivity | done].
Qed.

(** X1 at a remote side of three pages. *)
Lemma comment_concatenates_pages_witness :
  @comment _ pagedCli 3 (pagedMachine 0)
  = Ok (inr [remoteComment 0; remoteComment 1; remoteComment 2; remoteComment 3])
      (mkMachine threePages ∅ (service "" [])
         [ EvListComments (mkListOptions 0 100);
           EvListComments (mkListOptions 2 100);
           EvListComments (mkListOptions 3 100) ]).
Proof.
  destruct (@comment_concatenates_pages _ pagedCli 3 (pagedMachine 0) threePages
              [mkListOptions 0 100; mkListOptions 2 100; mkListOptions 3 100]
              threePages threePages_paged ltac:(cbn; lia)) as (Hrun & _).
  exact Hrun.
Defined.

(** X2 at the same remote side. *)
Lemma comment_returns_pages_witness :
  ∃ pages, length pages = 3%nat
           ∧ mjoin pages
             = [remoteComment 0; remoteComment 1; remoteComment 2; remoteComment 3].
Proof.
  destruct (@comment_returns_pages _ pagedCli 3 (pagedMachine 0)
              [remoteComment 0; remoteComment 1; remoteComment 2; remoteComment 3]
              (mkMachine threePages ∅ (service "" [])
                 [ EvListComments (mkListOptions 0 100);
                   EvListComments (mkListOptions 2 100);
                   EvListComments (mkListOptions 3 100) ])
              eq_refl) as (pages & tr & Hp & Hj & Hlen & Hlog & _).
  exists pages. split; [|done].
  cbn [log pagedMachine] in Hlog. cbn [app] in Hlog.
  apply (f_equal length) in Hlog. rewrite length_map in Hlog. cbn in Hlog.
  destruct (Paged_shape _ _ _ _ _ _ Hp) as (Hl & _). lia.
Defined.

(** X3 at a remote side whose second page cannot be had. *)
Lemma listing_error_surfaces_witness :
  ∃ m',
    @Flush _ brokenPageCli fakeHelpers 2 (pagedMachine 2) = Ok (Some (ErrorResponse 500)) m'
    ∧ log m' = [EvListComments (mkListOptions 0 100); EvListComments (mkListOptions 2 100)].
Proof.
  destruct (@listing_error_surfaces _ brokenPageCli fakeHelpers 2 (pagedMachine 2)
              (ErrorResponse 500) [mkListOptions 0 100; mkListOptions 2 100] threePages)
    as (_ & m' & Hrun & Hlog & _).
  - eapply PagedFail_later; [reflexivity | done |].
    eapply PagedFail_here. reflexivity.
  - cbn. lia.
  - exists m'. split; [exact Hrun | exact Hlog].
Defined.

(** X4 at a remote side that always names page 7 next. *)
Lemma listing_has_no_page_bound_witness :
  @Flush _ endlessCli fakeHelpers 1000 (mkMachine tt ∅ (service "" []) []) = OutOfFuel.
Proof.
  destruct (@listing_has_no_page_bound _ endlessCli fakeHelpers) with
    (fuel := 1000%nat) (m := mkMachine tt ∅ (service "" []) [])
    as (_ & _ & Hrun).
  - intros w o r n opts. exists w, [], (mkResponse 7). by split.
  - exact Hrun.
Defined.

Lemma afterFirstFlush_run :
  @Flush _ acceptingCli fakeHelpers 1 (machine 3 remoteMixed) = Ok None afterFirstFlush.
Proof. by vm_compute. Qed.

Lemma afterForty_run :
  @Flush _ acceptingCli fakeHelpers 1 (machine 40 []) = Ok None afterForty.
Proof. by vm_compute. Qed.

Lemma afterRejected_run :
  @Flush _ rejectingCli fakeHelpers 1 (machine 1 []) = Ok (Some abuse) afterRejected.
Proof. by vm_compute. Qed.

(** X5 at a flush that posts two of three buffered comments. *)
Lemma Flush_keeps_buffer_witness :
  postComments (svc afterFirstFlush) = [0; 1; 2]%nat
  ∧ mem afterFirstFlush = heapOf 3.
Proof.
  destruct (@Flush_keeps_buffer _ acceptingCli fakeHelpers 1 (machine 3 remoteMixed)
              None afterFirstFlush afterFirstFlush_run) as (Hbuf & Hmem & _).
  split; [exact Hbuf | exact Hmem].
Defined.

(** X6 at forty pending drafts: two reviews, one sleep. *)
Lemma Flush_counts_witness :
  length (reviewsOf (drop 1 (log afterForty))) = 2%nat
  ∧ length (sleepsOf (drop 1 (log afterForty))) = 1%nat.
Proof.
  destruct (@Flush_counts _ acceptingCli fakeHelpers 1 (machine 40 []) []
              (mkMachine [] (heapOf 40) (service "" (seq 0 40))
                 [EvListComments (mkListOptions 0 100)])
              afterForty (drop 1 (log afterForty))
              ltac:(live_by_computation) eq_refl afterForty_run
              ltac:(by vm_compute)) as (Hrev & Hsl & _).
  rewrite Hsl, Hrev. by vm_compute.
Defined.

(** X7 at forty pending drafts: 2 seconds in all. *)
Lemma Flush_total_backoff_witness :
  totalSleep (drop 1 (log afterForty)) = 2 * Second.
Proof.
  rewrite (@Flush_total_backoff _ acceptingCli fakeHelpers 1 (machine 40 []) []
             (mkMachine [] (heapOf 40) (service "" (seq 0 40))
                [EvListComments (mkListOptions 0 100)])
             afterForty (drop 1 (log afterForty))
             ltac:(live_by_computation) eq_refl afterForty_run
             ltac:(by vm_compute) ltac:(vm_compute; lia)).
  by vm_compute.
Defined.

(** X8 at a flush of three comments, the first of them listed. *)
Lemma Flush_submits_only_new_witness :
  ¬ present remoteMixed (draftOf (sampleComment 1)).
Proof.
  destruct (@Flush_submits_only_new _ acceptingCli fakeHelpers 1
              (machine 3 remoteMixed) remoteMixed
              (mkMachine remoteMixed (heapOf 3) (service "" (seq 0 3))
                 [EvListComments (mkListOptions 0 100)])
              None afterFirstFlush (drop 1 (log afterFirstFlush))
              ltac:(live_by_computation) eq_refl afterFirstFlush_run
              ltac:(by vm_compute) (draftOf (sampleComment 1)))
    as (Hnot & _).
  - replace (created (drop 1 (log afterFirstFlush)))
      with [draftOf (sampleComment 1); draftOf (sampleComment 2)]
      by (by vm_compute).
    apply list_elem_of_here.
  - exact Hnot.
Defined.

(** X9 at a client that rejects the review. *)
Lemma Flush_error_is_the_clients_witness :
  ∃ w rv, @CreateReview _ rejectingCli w "owner" "repo" 14 rv
          = (remote afterRejected, Some abuse).
Proof.
  destruct (@Flush_error_is_the_clients _ rejectingCli fakeHelpers 1 (machine 1 [])
              abuse afterRejected afterRejected_run)
    as [(tr & Hp)|(w & rv & Hcall & _)].
  - exists [], (mkReview None None []). reflexivity.
  - exists w, rv. exact Hcall.
Defined.


(** X11 at a fresh service, one comment and an empty remote side. *)
Lemma New_Post_Flush_witness :
  ∃ m1 m',
    @Post (list PullRequestComment) fakeHelpers 0 freshMachine = Ok None m1
    ∧ @Flush _ acceptingCli fakeHelpers 1 m1 = Ok None m'
    ∧ log m'
      = [ EvListComments (mkListOptions 0 100);
          EvCreateReview
            (mkReview (Some "1414") (Some "COMMENT")
               [mkDraft (Some "sub/main.go") (Some 0) (Some "**[lint]** body")]) ].
Proof.
  destruct (@New_Post_Flush _ acceptingCli fakeHelpers 1 "sub" "owner" "repo" "1414" 14
              freshService freshMachine 0%nat (sampleComment 0) []
              (mkMachine [] (<[0%nat := posted freshService (sampleComment 0)]> (heapOf 3))
                 (setPostComments freshService [0%nat])
                 [EvListComments (mkListOptions 0 100)])
              eq_refl eq_refl eq_refl eq_refl)
    as (m1 & r & m' & Hpost & Hrun & _ & Hnew & _).
  destruct Hnew as (Hlog & Hr).
  - intros (c & Hc & _). by apply elem_of_nil in Hc.
  - exists m1, m'. split; [exact Hpost|].
    cbn in Hr. subst r. split; [exact Hrun | exact Hlog].
Defined.

(** X12 at three comments of two tools. *)
Lemma remainingCommentsSummary_groups_witness :
  ∃ groups,
    groupOf groups "golint" = Some [toolComment "golint" 1; toolComment "golint" 3]
    ∧ groupOf groups "vet" = Some [toolComment "vet" 2]
    ∧ groupOf groups "errcheck" = None.
Proof.
  destruct (@remainingCommentsSummary_groups _ fakeHelpers [0; 1; 2]%nat toolMachine
              ltac:(live_by_computation)) as (groups & _ & _ & Hg & _).
  exists groups. rewrite !Hg. by vm_compute.
Defined.

End ExtraProps.
